(** * maas-flow: the state-transition engine of [state.go]

    A shallow embedding of the transition table, the action set, the
    dispatcher ([ProcessNode]), the filter engine ([buildFilter],
    [matchedFilter]) and the batch processor ([ProcessAll]), followed by the
    properties the specification states about them.

    Go's [error] is a value carrying a message; [nil] is [None].  The log,
    the POST requests sent to the MAAS server and the goroutines started with
    [go] are explicit state. *)

From stdpp Require Import gmap strings list.
From Stdlib Require Import ZArith Ascii.

(** ** A state monad for the effects of the program *)

Definition ST (S A : Type) : Type := S -> S * A.

Definition ret {S A : Type} (a : A) : ST S A := fun s => (s, a).

Definition bind {S A B : Type} (c : ST S A) (f : A -> ST S B) : ST S B :=
  fun s => let (s', a) := c s in f a s'.

Declare Scope st_scope.
Delimit Scope st_scope with st.
Notation "x <- c ;; k" := (bind c (fun x => k))
  (at level 100, c at next level, right associativity) : st_scope.
Notation "c ;; k" := (bind c (fun _ => k))
  (at level 100, right associativity) : st_scope.
Open Scope st_scope.

(** ** Data model *)

(** A Go [error]: the message it carries. *)
Inductive error : Type :=
  | errorString (msg : string).

Global Instance error_eq_dec : EqDecision error.
Proof. solve_decision. Defined.

(** [url.Values]: a map from parameter names to their values. *)
Abbreviation Values := (gmap string (list string)).

(** One POST sent to the server: the URI of the object it is sent to, the
    operation and its parameters. *)
Record PostRequest : Type := mkPost {
  post_uri : list string;
  post_operation : string;
  post_params : Values
}.

(** [maas.MAASObject] (library [gomaasapi]): an object of the server, known
    by its URI.  [service] is the server's answer to a POST: [None] when the
    request is accepted, an error otherwise. *)
Record MAASObject : Type := mkMAASObject {
  URI : list string;
  service : PostRequest -> option error
}.

(** [MaasNode]: the three read accessors and the integer attributes the
    engine reads.  The type is declared outside [state.go]. *)
Record MaasNode : Type := mkMaasNode {
  ID : string;
  Hostname : string;
  Zone : string;
  GetInteger : string -> Z + error
}.

Record PatternLists : Type := mkPatternLists {
  Include : list string;
  Exclude : list string
}.

Record FilterOptions : Type := mkFilterOptions {
  Zones : PatternLists;
  Hosts : PatternLists
}.

Record ProcessingOptions : Type := mkProcessingOptions {
  Filter : FilterOptions;
  Verbose : bool;
  Preview : bool
}.

(** What a thread of the program has done to the outside world: the lines
    it has written with [log.Printf] and the POST requests it has sent to
    the server, oldest first. *)
Record World : Type := mkWorld {
  logs : list string;
  posts : list PostRequest
}.

(** [Action]: how to get from there to here. *)
Definition Action : Type :=
  MAASObject -> MaasNode -> ProcessingOptions -> ST World (option error).

(** The program as the calling thread leaves it: [world] is what that
    thread has done itself, [goroutines] the calls it has started with [go],
    in order.  When a started call runs is up to the scheduler of Go and is
    not modelled: nothing here says what the server has received from the
    goroutines by the time the calling thread returns. *)
Record Runtime : Type := mkRuntime {
  world : World;
  goroutines : list (ST World (option error))
}.

(** ** Primitive effects *)

Definition log_Printf (line : string) : ST World unit :=
  fun w => ({| logs := logs w ++ [line]; posts := posts w |}, tt).

Definition GetSubObject (name : string) (obj : MAASObject) : MAASObject :=
  {| URI := URI obj ++ [name]; service := service obj |}.

(** [CallPost]: the request reaches the server, which answers.  The JSON
    answer is dropped by every caller, only the error is kept. *)
Definition CallPost (operation : string) (params : Values) (obj : MAASObject)
  : ST World (option error) :=
  fun w =>
    let req := mkPost (URI obj) operation params in
    ({| logs := logs w; posts := posts w ++ [req] |}, service obj req).

(** A computation on the world, run inside the program. *)
Definition inline {A : Type} (c : ST World A) : ST Runtime A :=
  fun r => let (w, a) := c (world r) in
           ({| world := w; goroutines := goroutines r |}, a).

(** The [go] statement, for the calling thread: the call is started, the
    thread goes on without waiting for it, and its result goes nowhere. *)
Definition go (task : ST World (option error)) : ST Runtime unit :=
  fun r => ({| world := world r; goroutines := goroutines r ++ [task] |}, tt).

(** [%v] (and [%s]) of a [[]string]. *)
Definition fmt_strings (l : list string) : string :=
  "[" +:+ String.concat " " l +:+ "]".

(** ** The action set *)

(** Done: we are at the target state, nothing to do. *)
Definition Done : Action := fun client node options =>
  log_Printf ("COMPLETE: " +:+ Hostname node);;
  ret None.

(** Deploy: cause a node to deploy. *)
Definition Deploy : Action := fun client node options =>
  log_Printf ("DEPLOY: " +:+ Hostname node);;
  if negb (Preview options) then
    let nodesObj := GetSubObject "nodes" client in
    let myNode := GetSubObject (ID node) nodesObj in
    err <- CallPost "start" ∅ myNode;;
    match err with
    | Some e => ret (Some e)
    | None => ret None
    end
  else ret None.

(** Aquire: acquire a machine to a specific operator. *)
Definition Aquire : Action := fun client node options =>
  log_Printf ("AQUIRE: " +:+ Hostname node);;
  if negb (Preview options) then
    let nodesObj := GetSubObject "nodes" client in
    let params : Values := {[ "name" := [Hostname node] ]} in
    err <- CallPost "acquire" params nodesObj;;
    match err with
    | Some e => ret (Some e)
    | None => ret None
    end
  else ret None.

(** Commission: cause a node to be commissioned. *)
Definition Commission : Action := fun client node options =>
  log_Printf ("COMISSION: " +:+ Hostname node);;
  if negb (Preview options) then
    let nodesObj := GetSubObject "nodes" client in
    let nodeObj := GetSubObject (ID node) nodesObj in
    err <- CallPost "commission" ∅ nodeObj;;
    match err with
    | Some e => ret (Some e)
    | None => ret None
    end
  else ret None.

(** Wait: a do nothing state, while work is being done. *)
Definition Wait : Action := fun client node options =>
  log_Printf ("WAIT: " +:+ Hostname node);;
  ret None.

(** Fail: a state from which we cannot, currently, automatically recover. *)
Definition Fail : Action := fun client node options =>
  log_Printf ("FAIL: " +:+ Hostname node);;
  ret None.

(** AdminState: an administrative state from which we should make no
    automatic transition. *)
Definition AdminState : Action := fun client node options =>
  log_Printf ("ADMIN: " +:+ Hostname node);;
  ret None.

(** ** The engine

    [Transitions] is a package variable of [state.go]; the engine reads it
    and never writes it, so it is a parameter here and the table of the
    source is the constant [Transitions] declared after the section.  The
    regular expressions (Go's [regexp]) and the names of the status codes
    ([MaasNodeStatus.String], declared outside [state.go]) are parameters
    as well. *)

(** The result of a call that may end the process ([log.Fatalf]). *)
Inductive outcome (A : Type) : Type :=
  | Returns (a : A)
  | Exits (code : Z).
Arguments Returns {A} a.
Arguments Exits {A} code.

Section Engine.

Variable Transitions : gmap string (gmap string Action).
Variable MaasNodeStatus_String : Z -> string.
Variable Regexp : Type.
Variable Compile : string -> Regexp + error.
Variable MatchString : Regexp -> string -> bool.

Definition findAction (target current : string) : ST World (Action + error) :=
  match Transitions !! target with
  | None =>
      log_Printf ("[warn] unable to find transitions to target state '"
                  +:+ target +:+ "'");;
      ret (inr (errorString ("Could not find transition to target state '"
                             +:+ target +:+ "'")))
  | Some targets =>
      match targets !! current with
      | None =>
          log_Printf ("[warn] unable to find transition from current state '"
                      +:+ current +:+ "' to target state '" +:+ target +:+ "'");;
          ret (inr (errorString
                      ("Could not find transition from current state '"
                       +:+ current +:+ "' to target state '" +:+ target +:+ "'")))
      | Some action => ret (inl action)
      end
  end.

Definition ProcessNode (client : MAASObject) (node : MaasNode)
    (options : ProcessingOptions) : ST Runtime (option error) :=
  match GetInteger node "substatus" with
  | inr err => ret (Some err)
  | inl substatus =>
      found <- inline (findAction "Deployed" (MaasNodeStatus_String substatus));;
      match found with
      | inr err => ret (Some err)
      | inl action =>
          (if Preview options
           then (_ <- inline (action client node options);; ret tt)
           else go (action client node options));;
          ret None
      end
  end.

Fixpoint buildFilter (filter : list string) : list Regexp + error :=
  match filter with
  | [] => inl []
  | v :: rest =>
      match Compile v with
      | inr err => inr err
      | inl r =>
          match buildFilter rest with
          | inr err => inr err
          | inl results => inl (r :: results)
          end
      end
  end.

Fixpoint matchedFilter (include : list Regexp) (target : string) : bool :=
  match include with
  | [] => false
  | e :: rest => if MatchString e target then true else matchedFilter rest target
  end.

(** The body of the loop of [ProcessAll] from index [i] on; [errors] is
    the slice being filled. *)
Fixpoint ProcessAll_loop (client : MAASObject) (options : ProcessingOptions)
    (includeHosts includeZones : list Regexp)
    (i : nat) (nodes : list MaasNode) (errors : list (option error))
    : ST Runtime (list (option error)) :=
  match nodes with
  | [] => ret errors
  | node :: rest =>
      if (Z.of_nat (length includeHosts) >=? 0)%Z
         && matchedFilter includeHosts (Hostname node)
      then
        if (Z.of_nat (length includeZones) >=? 0)%Z
           && matchedFilter includeZones (Zone node)
        then
          err <- ProcessNode client node options;;
          match err with
          | Some e =>
              ProcessAll_loop client options includeHosts includeZones
                (S i) rest (<[i := Some e]> errors)
          | None =>
              ProcessAll_loop client options includeHosts includeZones
                (S i) rest (<[i := None]> errors)
          end
        else
          (if Verbose options
           then inline (log_Printf
                  ("[info] ignoring node '" +:+ Hostname node
                   +:+ "' as its zone '" +:+ Zone node
                   +:+ "' didn't match include zone name filter '"
                   +:+ fmt_strings (Include (Zones (Filter options))) +:+ "'"))
           else ret tt);;
          ProcessAll_loop client options includeHosts includeZones
            (S i) rest errors
      else
        (if Verbose options
         then inline (log_Printf
                ("[info] ignoring node '" +:+ Hostname node
                 +:+ "' as it didn't match include hostname filter '"
                 +:+ fmt_strings (Include (Hosts (Filter options))) +:+ "'"))
         else ret tt);;
        ProcessAll_loop client options includeHosts includeZones
          (S i) rest errors
  end.

Definition ProcessAll (client : MAASObject) (nodes : list MaasNode)
    (options : ProcessingOptions) : ST Runtime (outcome (list (option error))) :=
  let errors : list (option error) := replicate (length nodes) None in
  match buildFilter (Include (Hosts (Filter options))) with
  | inr (errorString msg) =>
      inline (log_Printf
        ("[error] invalid regular expression for include filter '"
         +:+ fmt_strings (Include (Hosts (Filter options)))
         +:+ "' : " +:+ msg));;
      ret (Exits 1)
  | inl includeHosts =>
      match buildFilter (Include (Zones (Filter options))) with
      | inr (errorString msg) =>
          inline (log_Printf
            ("[error] invalid regular expression for include filter '"
             +:+ fmt_strings (Include (Zones (Filter options)))
             +:+ "' : " +:+ msg));;
          ret (Exits 1)
      | inl includeZones =>
          errors <- ProcessAll_loop client options includeHosts includeZones
                      0 nodes errors;;
          ret (Returns errors)
      end
  end.

End Engine.

(** ** The transition table and the state machine of the source *)

(** Transitions: the actual map. *)
Definition Transitions : gmap string (gmap string Action) :=
  {[ "Deployed" :=
       list_to_map
         [ ("New", Commission);
           ("Deployed", Done);
           ("Ready", Aquire);
           ("Allocated", Deploy);
           ("Retired", AdminState);
           ("Reserved", AdminState);
           ("Releasing", Wait);
           ("DiskErasing", Wait);
           ("Deploying", Wait);
           ("Commissioning", Wait);
           ("Missing", Fail);
           ("FailedReleasing", Fail);
           ("FailedDiskErasing", Fail);
           ("FailedDeployment", Fail);
           ("Broken", Fail);
           ("FailedCommissioning", Fail) ] ]}.

(** defaultStateMachine: would be nice to drive from a graph language. *)
Definition defaultStateMachine : string := "
        (New)->(Commissioning)
        (Commissioning)->(FailedCommissioning)
        (FailedCommissioning)->(New)
        (Commissioning)->(Ready)
        (Ready)->(Deploying)
        (Ready)->(Allocated)
        (Allocated)->(Deploying)
        (Deploying)->(Deployed)
        (Deploying)->(FailedDeployment)
        (FailedDeployment)->(Broken)
        (Deployed)->(Releasing)
        (Releasing)->(FailedReleasing)
        (FailedReleasing)->(Broken)
        (Releasing)->(DiskErasing)
        (DiskErasing)->(FailedEraseDisk)
        (FailedEraseDisk)->(Broken)
        (Releasing)->(Ready)
        (DiskErasing)->(Ready)
        (Broken)->(Ready)".

(** The chart is never read by the program.  To speak of its states it is
    read here the obvious way: the names between parentheses, taken two by
    two, are the edges. *)
Fixpoint chart_names (inside : option string) (chart : string) : list string :=
  match chart with
  | EmptyString => []
  | String c rest =>
      match inside with
      | None =>
          if Ascii.eqb c "("%char then chart_names (Some EmptyString) rest
          else chart_names None rest
      | Some name =>
          if Ascii.eqb c ")"%char then name :: chart_names None rest
          else chart_names (Some (name +:+ String c EmptyString)) rest
      end
  end.

Fixpoint chart_pairs (names : list string) : list (string * string) :=
  match names with
  | a :: b :: rest => (a, b) :: chart_pairs rest
  | _ => []
  end.

Definition chart_edges (chart : string) : list (string * string) :=
  chart_pairs (chart_names None chart).

(** One hop of the lifecycle graph. *)
Definition chart_step (chart : string) (a b : string) : Prop :=
  (a, b) ∈ chart_edges chart.

(** ** Vocabulary of the specification *)

(** The two failures of [findAction], under the names the specification
    gives them; the messages are those of the source. *)
Definition UnknownTargetError (target : string) : error :=
  errorString ("Could not find transition to target state '" +:+ target +:+ "'").

Definition UnknownTransitionError (current target : string) : error :=
  errorString ("Could not find transition from current state '" +:+ current
               +:+ "' to target state '" +:+ target +:+ "'").

Section Eligibility.

Variable Regexp : Type.
Variable MatchString : Regexp -> string -> bool.

(** Step 1 and step 2 of the eligibility rule, as [ProcessAll] tests them. *)
Definition host_passes (includeHosts : list Regexp) (node : MaasNode) : bool :=
  (Z.of_nat (length includeHosts) >=? 0)%Z
  && matchedFilter Regexp MatchString includeHosts (Hostname node).

Definition zone_passes (includeZones : list Regexp) (node : MaasNode) : bool :=
  (Z.of_nat (length includeZones) >=? 0)%Z
  && matchedFilter Regexp MatchString includeZones (Zone node).

Definition eligible (includeHosts includeZones : list Regexp)
    (node : MaasNode) : bool :=
  host_passes includeHosts node && zone_passes includeZones node.

(** The eligibility rule in the words of the specification (4.3): step 1,
    the hostname matches the host-include filter, an empty list counting as
    a match for every hostname; step 2, the zone matches the zone-include
    filter, an empty list matching nothing. *)
Definition spec_eligible (includeHosts includeZones : list Regexp)
    (node : MaasNode) : bool :=
  match includeHosts with
  | [] => true
  | _ :: _ => matchedFilter Regexp MatchString includeHosts (Hostname node)
  end
  && matchedFilter Regexp MatchString includeZones (Zone node).

(** The line [ProcessAll] logs, in verbose mode, for a machine it leaves
    alone. *)
Definition ignoring_line (options : ProcessingOptions)
    (includeHosts : list Regexp) (node : MaasNode) : string :=
  if host_passes includeHosts node
  then "[info] ignoring node '" +:+ Hostname node
       +:+ "' as its zone '" +:+ Zone node
       +:+ "' didn't match include zone name filter '"
       +:+ fmt_strings (Include (Zones (Filter options))) +:+ "'"
  else "[info] ignoring node '" +:+ Hostname node
       +:+ "' as it didn't match include hostname filter '"
       +:+ fmt_strings (Include (Hosts (Filter options))) +:+ "'".

(** The runtime after [ProcessAll] has left every machine of [nodes]
    alone: one line each in verbose mode, nothing else. *)
Definition all_ignored (options : ProcessingOptions)
    (includeHosts : list Regexp) (nodes : list MaasNode) (r : Runtime)
    : Runtime :=
  if Verbose options
  then {| world := {| logs := logs (world r)
                              ++ map (ignoring_line options includeHosts) nodes;
                      posts := posts (world r) |};
          goroutines := goroutines r |}
  else r.

End Eligibility.

(** Two option values that differ at most in their exclude lists. *)
Definition same_but_excludes (o1 o2 : ProcessingOptions) : Prop :=
  Include (Zones (Filter o1)) = Include (Zones (Filter o2))
  /\ Include (Hosts (Filter o1)) = Include (Hosts (Filter o2))
  /\ Verbose o1 = Verbose o2
  /\ Preview o1 = Preview o2.

(** The eligibility of a machine under [options]; [None] when a pattern of
    the include lists does not compile, in which case [ProcessAll] ends the
    process. *)
Definition eligible_under (Regexp : Type) (Compile : string -> Regexp + error)
    (MatchString : Regexp -> string -> bool)
    (options : ProcessingOptions) (node : MaasNode) : option bool :=
  match buildFilter Regexp Compile (Include (Hosts (Filter options))),
        buildFilter Regexp Compile (Include (Zones (Filter options))) with
  | inl includeHosts, inl includeZones =>
      Some (eligible Regexp MatchString includeHosts includeZones node)
  | _, _ => None
  end.

(** ** One machine at a time *)

Section Visit.

Variable Transitions : gmap string (gmap string Action).
Variable MaasNodeStatus_String : Z -> string.
Variable Regexp : Type.
Variable MatchString : Regexp -> string -> bool.

(** The action the dispatcher resolves for a machine, when the status of
    the machine can be read and the table has an entry for it under
    "Deployed". *)
Definition resolved_action (node : MaasNode) : option Action :=
  match GetInteger node "substatus" with
  | inr _ => None
  | inl status => Transitions !! "Deployed" ≫= (.!! MaasNodeStatus_String status)
  end.

(** What one turn of the loop of [ProcessAll] does for the machine it is
    at: the error of the dispatcher when the machine is eligible, nothing
    (and a line in verbose mode) when it is not. *)
Definition visit (client : MAASObject) (options : ProcessingOptions)
    (includeHosts includeZones : list Regexp) (node : MaasNode)
    : ST Runtime (option (option error)) :=
  if eligible Regexp MatchString includeHosts includeZones node
  then err <- ProcessNode Transitions MaasNodeStatus_String client node options;;
       ret (Some err)
  else (if Verbose options
        then inline (log_Printf
               (ignoring_line Regexp MatchString options includeHosts node))
        else ret tt);;
       ret None.


(** A table none of whose actions sends a request in preview mode. *)
Definition quiet_in_preview : Prop :=
  forall current action client node options w,
    Transitions !! "Deployed" ≫= (.!! current) = Some action ->
    Preview options = true ->
    posts (action client node options w).1 = posts w.

End Visit.

(** ** A small instance of the parameters, to run the engine on examples *)

Module Sample.

(** A stand-in for Go's [regexp], for the examples only: patterns made of
    a literal, optionally anchored at the start with [^] and at the end with
    [$].  On these [MatchString] agrees with Go.  [Compile] rejects every
    other pattern, also those Go accepts, and the text of its error is a
    placeholder, not the message of Go. *)
Record Literal : Type := mkLiteral {
  at_start : bool;
  at_end : bool;
  text : string
}.

Definition strip_caret (pattern : string) : bool * string :=
  match pattern with
  | String c rest => if Ascii.eqb c "^"%char then (true, rest) else (false, pattern)
  | EmptyString => (false, pattern)
  end.

Fixpoint strip_dollar (pattern : string) : bool * string :=
  match pattern with
  | EmptyString => (false, EmptyString)
  | String c EmptyString =>
      if Ascii.eqb c "$"%char then (true, EmptyString) else (false, pattern)
  | String c rest => let (b, r) := strip_dollar rest in (b, String c r)
  end.

Definition special (c : ascii) : bool :=
  existsb (Ascii.eqb c) (String.list_ascii_of_string "\.+*?()|[]{}^$").

Definition Compile (pattern : string) : Literal + error :=
  let (s, p1) := strip_caret pattern in
  let (e, p2) := strip_dollar p1 in
  if existsb special (String.list_ascii_of_string p2)
  then inr (errorString ("error parsing regexp: `" +:+ pattern +:+ "`"))
  else inl (mkLiteral s e p2).

Fixpoint contains (lit s : string) : bool :=
  String.prefix lit s
  || match s with
     | EmptyString => false
     | String _ rest => contains lit rest
     end.

Fixpoint ends_with (lit s : string) : bool :=
  String.eqb lit s
  || match s with
     | EmptyString => false
     | String _ rest => ends_with lit rest
     end.

Definition MatchString (re : Literal) (s : string) : bool :=
  match at_start re, at_end re with
  | true, true => String.eqb (text re) s
  | true, false => String.prefix (text re) s
  | false, true => ends_with (text re) s
  | false, false => contains (text re) s
  end.

(** Names for the status codes, numbered as the MAAS server numbers the
    states of a node. *)
Definition MaasNodeStatus_String (status : Z) : string :=
  match status with
  | 0 => "New"
  | 1 => "Commissioning"
  | 2 => "FailedCommissioning"
  | 3 => "Missing"
  | 4 => "Ready"
  | 5 => "Reserved"
  | 6 => "Deployed"
  | 7 => "Retired"
  | 8 => "Broken"
  | 9 => "Deploying"
  | 10 => "Allocated"
  | 11 => "FailedDeployment"
  | 12 => "Releasing"
  | 13 => "FailedReleasing"
  | 14 => "DiskErasing"
  | 15 => "FailedDiskErasing"
  | _ => "Invalid"
  end%Z.

(** A machine whose status reads as [status]. *)
Definition machine (id hostname zone : string) (status : Z + error) : MaasNode :=
  {| ID := id; Hostname := hostname; Zone := zone;
     GetInteger := fun key =>
       if String.eqb key "substatus" then status
       else inr (errorString ("Requested integer, got <nil>.")) |}.

(** A server that accepts every request, and one that refuses them all. *)
Definition accepting : MAASObject :=
  {| URI := ["MAAS"; "api"; "1.0"]; service := fun _ => None |}.

Definition refusing : MAASObject :=
  {| URI := ["MAAS"; "api"; "1.0"];
     service := fun _ => Some (errorString "gomaasapi: got error back from server: 409 CONFLICT") |}.

Definition options (zones hosts : list string) (verbose preview : bool)
  : ProcessingOptions :=
  {| Filter := {| Zones := {| Include := zones; Exclude := [] |};
                  Hosts := {| Include := hosts; Exclude := [] |} |};
     Verbose := verbose; Preview := preview |}.

Definition start : Runtime :=
  {| world := {| logs := []; posts := [] |}; goroutines := [] |}.

End Sample.

(** * Properties *)

(** Unfolds the monad and the primitive effects. *)
Ltac st_unfold :=
  unfold bind, ret, inline, go, log_Printf, CallPost in *; simpl in *.

(** ** The transition table *)

Section TableProperties.

Variable T : gmap string (gmap string Action).

Lemma findAction_found target current targets action w :
  T !! target = Some targets ->
  targets !! current = Some action ->
  findAction T target current w = (w, inl action).
Proof.
  intros Ht Hc. unfold findAction. rewrite Ht, Hc. reflexivity.
Qed.

Lemma findAction_no_target target current w :
  T !! target = None ->
  findAction T target current w
  = ({| logs := logs w ++ ["[warn] unable to find transitions to target state '"
                            +:+ target +:+ "'"];
        posts := posts w |},
     inr (UnknownTargetError target)).
Proof.
  intros Ht. unfold findAction. rewrite Ht. reflexivity.
Qed.

Lemma findAction_no_transition target current targets w :
  T !! target = Some targets ->
  targets !! current = None ->
  findAction T target current w
  = ({| logs := logs w ++ ["[warn] unable to find transition from current state '"
                            +:+ current +:+ "' to target state '"
                            +:+ target +:+ "'"];
        posts := posts w |},
     inr (UnknownTransitionError current target)).
Proof.
  intros Ht Hc. unfold findAction. rewrite Ht, Hc. reflexivity.
Qed.

(** What [findAction] returns does not depend on the world it runs in. *)
Lemma findAction_result target current w :
  (findAction T target current w).2
  = match T !! target with
    | None => inr (UnknownTargetError target)
    | Some targets =>
        match targets !! current with
        | None => inr (UnknownTransitionError current target)
        | Some action => inl action
        end
    end.
Proof.
  unfold findAction.
  destruct (T !! target) as [targets|]; [|reflexivity].
  destruct (targets !! current); reflexivity.
Qed.

Lemma findAction_posts target current w :
  posts (findAction T target current w).1 = posts w.
Proof.
  unfold findAction.
  destruct (T !! target) as [targets|]; [|reflexivity].
  destruct (targets !! current); reflexivity.
Qed.

End TableProperties.

Lemma unknown_errors_differ target current target' :
  UnknownTargetError target <> UnknownTransitionError current target'.
Proof. unfold UnknownTargetError, UnknownTransitionError. simpl. discriminate. Qed.

(** The entries of the table of the source, one by one. *)
Lemma Transitions_Deployed current :
  Transitions !! "Deployed" ≫= (.!! current)
  = if String.eqb current "New" then Some Commission
    else if String.eqb current "Deployed" then Some Done
    else if String.eqb current "Ready" then Some Aquire
    else if String.eqb current "Allocated" then Some Deploy
    else if String.eqb current "Retired" then Some AdminState
    else if String.eqb current "Reserved" then Some AdminState
    else if String.eqb current "Releasing" then Some Wait
    else if String.eqb current "DiskErasing" then Some Wait
    else if String.eqb current "Deploying" then Some Wait
    else if String.eqb current "Commissioning" then Some Wait
    else if String.eqb current "Missing" then Some Fail
    else if String.eqb current "FailedReleasing" then Some Fail
    else if String.eqb current "FailedDiskErasing" then Some Fail
    else if String.eqb current "FailedDeployment" then Some Fail
    else if String.eqb current "Broken" then Some Fail
    else if String.eqb current "FailedCommissioning" then Some Fail
    else None.
Proof.
  unfold Transitions. rewrite lookup_singleton_eq. simpl.
  repeat match goal with
         | |- context [String.eqb current ?s] =>
             destruct (String.eqb_spec current s) as [->|?];
             [ reflexivity | rewrite lookup_insert_ne by congruence ]
         end.
  apply lookup_empty.
Qed.

(** C3. For every (target, current) pair present in the table, [findAction]
    returns the configured action and leaves the world as it was, so that a
    repeated call returns the same action; in the table of the source, under
    target "Deployed", "Ready" resolves to Aquire, "Allocated" to Deploy,
    "Retired" to AdminState, "Missing" to Fail and "Deployed" to Done. *)
Theorem findAction_configured :
  (forall (T : gmap string (gmap string Action)) target current targets action w,
      T !! target = Some targets ->
      targets !! current = Some action ->
      findAction T target current w = (w, inl action)
      /\ findAction T target current (findAction T target current w).1
         = (w, inl action))
  /\ (forall w, findAction Transitions "Deployed" "Ready" w = (w, inl Aquire))
  /\ (forall w, findAction Transitions "Deployed" "Allocated" w = (w, inl Deploy))
  /\ (forall w, findAction Transitions "Deployed" "Retired" w = (w, inl AdminState))
  /\ (forall w, findAction Transitions "Deployed" "Missing" w = (w, inl Fail))
  /\ (forall w, findAction Transitions "Deployed" "Deployed" w = (w, inl Done)).
Proof.
  split.
  - intros T target current targets action w Ht Hc.
    rewrite (findAction_found T _ _ _ _ w Ht Hc). simpl.
    split; [reflexivity|]. apply (findAction_found T _ _ _ _ w Ht Hc).
  - repeat split; intros w; reflexivity.
Qed.

Lemma findAction_configured_witness :
  findAction Transitions "Deployed" "New" {| logs := []; posts := [] |}
  = ({| logs := []; posts := [] |}, inl Commission).
Proof.
  refine (proj1 (proj1 findAction_configured Transitions "Deployed" "New"
                   _ Commission {| logs := []; posts := [] |} _ _)).
  - unfold Transitions. apply lookup_singleton_eq.
  - reflexivity.
Defined.

(** C4. [findAction] fails with UnknownTargetError for a target that is not
    in the table, and with UnknownTransitionError for a current state that
    has no entry under a target that is; in both cases what it returns is
    the error, not an action. *)
Theorem findAction_unknown (T : gmap string (gmap string Action))
    (target current : string) (w : World) :
  (T !! target = None ->
     (findAction T target current w).2 = inr (UnknownTargetError target))
  /\ (forall targets,
        T !! target = Some targets ->
        targets !! current = None ->
        (findAction T target current w).2
        = inr (UnknownTransitionError current target)).
Proof.
  split.
  - intros Ht. rewrite findAction_no_target by assumption. reflexivity.
  - intros targets Ht Hc.
    rewrite (findAction_no_transition T _ _ _ w Ht Hc). reflexivity.
Qed.

Lemma findAction_unknown_witness :
  (findAction Transitions "Ready" "New" {| logs := []; posts := [] |}).2
  = inr (UnknownTargetError "Ready")
  /\ (findAction Transitions "Deployed" "Invalid" {| logs := []; posts := [] |}).2
     = inr (UnknownTransitionError "Invalid" "Deployed").
Proof.
  split.
  - apply (proj1 (findAction_unknown Transitions "Ready" "New"
                    {| logs := []; posts := [] |})).
    reflexivity.
  - refine (proj2 (findAction_unknown Transitions "Deployed" "Invalid"
                     {| logs := []; posts := [] |}) _ _ _).
    + unfold Transitions. apply lookup_singleton_eq.
    + reflexivity.
Defined.

Lemma chart_edges_default :
  chart_edges defaultStateMachine
  = [ ("New", "Commissioning"); ("Commissioning", "FailedCommissioning");
      ("FailedCommissioning", "New"); ("Commissioning", "Ready");
      ("Ready", "Deploying"); ("Ready", "Allocated");
      ("Allocated", "Deploying"); ("Deploying", "Deployed");
      ("Deploying", "FailedDeployment"); ("FailedDeployment", "Broken");
      ("Deployed", "Releasing"); ("Releasing", "FailedReleasing");
      ("FailedReleasing", "Broken"); ("Releasing", "DiskErasing");
      ("DiskErasing", "FailedEraseDisk"); ("FailedEraseDisk", "Broken");
      ("Releasing", "Ready"); ("DiskErasing", "Ready"); ("Broken", "Ready") ].
Proof. reflexivity. Qed.

Lemma chart_step_default a b :
  bool_decide ((a, b) ∈ chart_edges defaultStateMachine) = true ->
  chart_step defaultStateMachine a b.
Proof. unfold chart_step. apply bool_decide_eq_true_1. Qed.

(** C10. "FailedEraseDisk" is a state of the declared lifecycle graph,
    reachable from "New", but the table has no entry for it under target
    "Deployed": [findAction "Deployed" "FailedEraseDisk"] fails with
    UnknownTransitionError and returns no action. *)
Theorem FailedEraseDisk_has_no_transition :
  rtc (chart_step defaultStateMachine) "New" "FailedEraseDisk"
  /\ Transitions !! "Deployed" ≫= (.!! "FailedEraseDisk") = None
  /\ (forall w,
        findAction Transitions "Deployed" "FailedEraseDisk" w
        = ({| logs := logs w
                ++ ["[warn] unable to find transition from current state 'FailedEraseDisk' to target state 'Deployed'"];
              posts := posts w |},
           inr (UnknownTransitionError "FailedEraseDisk" "Deployed"))).
Proof.
  split; [|split].
  - apply rtc_l with "Commissioning"; [by apply chart_step_default|].
    apply rtc_l with "Ready"; [by apply chart_step_default|].
    apply rtc_l with "Deploying"; [by apply chart_step_default|].
    apply rtc_l with "Deployed"; [by apply chart_step_default|].
    apply rtc_l with "Releasing"; [by apply chart_step_default|].
    apply rtc_l with "DiskErasing"; [by apply chart_step_default|].
    apply rtc_once. by apply chart_step_default.
  - rewrite Transitions_Deployed. reflexivity.
  - intros w. reflexivity.
Qed.

(** ** The action set *)

Lemma log_only_posts line w : posts (log_Printf line w).1 = posts w.
Proof. reflexivity. Qed.

(** In either mode the three calling actions log their line first. *)
Lemma calling_actions_log client node options w :
  logs (Deploy client node options w).1 = logs w ++ ["DEPLOY: " +:+ Hostname node]
  /\ logs (Aquire client node options w).1 = logs w ++ ["AQUIRE: " +:+ Hostname node]
  /\ logs (Commission client node options w).1
     = logs w ++ ["COMISSION: " +:+ Hostname node].
Proof.
  unfold Deploy, Aquire, Commission. st_unfold.
  destruct (Preview options); simpl;
    repeat match goal with
           | |- context [service ?c ?r] => destruct (service c r)
           end; auto.
Qed.

(** Out of preview mode each of the three sends exactly one request. *)
Lemma calling_actions_post client node options w :
  Preview options = false ->
  posts (Deploy client node options w).1
  = posts w ++ [mkPost (URI client ++ ["nodes"; ID node]) "start" ∅]
  /\ posts (Aquire client node options w).1
     = posts w ++ [mkPost (URI client ++ ["nodes"]) "acquire"
                     {[ "name" := [Hostname node] ]}]
  /\ posts (Commission client node options w).1
     = posts w ++ [mkPost (URI client ++ ["nodes"; ID node]) "commission" ∅].
Proof.
  intros Hp. unfold Deploy, Aquire, Commission. st_unfold. rewrite Hp. simpl.
  rewrite <- !app_assoc. simpl.
  repeat match goal with
         | |- context [service ?c ?r] => destruct (service c r)
         end; auto.
Qed.

(** The lines of the seven actions for one machine are pairwise distinct:
    the line tells which action ran. *)
Lemma action_lines_distinct client node options w :
  NoDup [ logs (Done client node options w).1;
          logs (Deploy client node options w).1;
          logs (Aquire client node options w).1;
          logs (Commission client node options w).1;
          logs (Wait client node options w).1;
          logs (Fail client node options w).1;
          logs (AdminState client node options w).1 ].
Proof.
  destruct (calling_actions_log client node options w) as (-> & -> & ->).
  change (NoDup ((fun tag => logs w ++ [tag +:+ Hostname node])
                   <$> ["COMPLETE: "; "DEPLOY: "; "AQUIRE: "; "COMISSION: ";
                        "WAIT: "; "FAIL: "; "ADMIN: "])).
  apply NoDup_fmap_2_strong.
  - intros t1 t2 H1 H2 Heq. apply app_inv_head in Heq.
    repeat (apply elem_of_cons in H1 as [->|H1]);
      try (by apply elem_of_nil in H1);
      repeat (apply elem_of_cons in H2 as [->|H2]);
      try (by apply elem_of_nil in H2);
      try reflexivity; cbv [String.append] in Heq; congruence.
  - apply (bool_decide_unpack _). by vm_compute.
Qed.

(** C6. In preview mode Deploy, Aquire and Commission send nothing to the
    server: their only effect is their log line.  Wait, Fail, AdminState and
    Done send nothing in either mode.  Every action logs a line made of its
    tag and the hostname of the machine, in either mode, and the tags tell
    the actions apart. *)
Theorem actions_external_calls (client : MAASObject) (node : MaasNode)
    (options : ProcessingOptions) (w : World) :
  (Preview options = true ->
     Deploy client node options w
     = ((log_Printf ("DEPLOY: " +:+ Hostname node) w).1, None)
     /\ Aquire client node options w
        = ((log_Printf ("AQUIRE: " +:+ Hostname node) w).1, None)
     /\ Commission client node options w
        = ((log_Printf ("COMISSION: " +:+ Hostname node) w).1, None))
  /\ (Wait client node options w
      = ((log_Printf ("WAIT: " +:+ Hostname node) w).1, None)
      /\ Fail client node options w
         = ((log_Printf ("FAIL: " +:+ Hostname node) w).1, None)
      /\ AdminState client node options w
         = ((log_Printf ("ADMIN: " +:+ Hostname node) w).1, None)
      /\ Done client node options w
         = ((log_Printf ("COMPLETE: " +:+ Hostname node) w).1, None))
  /\ (forall line, posts (log_Printf line w).1 = posts w)
  /\ (logs (Deploy client node options w).1
      = logs w ++ ["DEPLOY: " +:+ Hostname node]
      /\ logs (Aquire client node options w).1
         = logs w ++ ["AQUIRE: " +:+ Hostname node]
      /\ logs (Commission client node options w).1
         = logs w ++ ["COMISSION: " +:+ Hostname node])
  /\ NoDup [ logs (Done client node options w).1;
             logs (Deploy client node options w).1;
             logs (Aquire client node options w).1;
             logs (Commission client node options w).1;
             logs (Wait client node options w).1;
             logs (Fail client node options w).1;
             logs (AdminState client node options w).1 ].
Proof.
  split; [|split; [|split; [|split]]]; [| | | |apply action_lines_distinct].
  - intros Hp. unfold Deploy, Aquire, Commission. st_unfold. rewrite Hp.
    simpl. auto.
  - repeat split.
  - intros line. reflexivity.
  - apply calling_actions_log.
Qed.

Lemma actions_external_calls_witness :
  Deploy Sample.refusing (Sample.machine "n1" "web-01" "us-east" (inl 10%Z))
    (Sample.options [] [] false true) {| logs := []; posts := [] |}
  = ({| logs := ["DEPLOY: web-01"]; posts := [] |}, None).
Proof.
  refine (proj1 (proj1 (actions_external_calls Sample.refusing
            (Sample.machine "n1" "web-01" "us-east" (inl 10%Z))
            (Sample.options [] [] false true) {| logs := []; posts := [] |}) _)).
  reflexivity.
Defined.

(** ** The dispatcher *)

Section DispatcherProperties.

Variable T : gmap string (gmap string Action).
Variable name : Z -> string.

Lemma findAction_found_world target current w action :
  (findAction T target current w).2 = inl action ->
  (findAction T target current w).1 = w.
Proof.
  unfold findAction.
  destruct (T !! target) as [targets|]; [|discriminate].
  destruct (targets !! current); [reflexivity|discriminate].
Qed.

(** The error of the dispatcher is read off the machine and the table. *)
Lemma ProcessNode_result client node options r w0 :
  (ProcessNode T name client node options r).2
  = match GetInteger node "substatus" with
    | inr e => Some e
    | inl status =>
        match (findAction T "Deployed" (name status) w0).2 with
        | inr e => Some e
        | inl _ => None
        end
    end.
Proof.
  unfold ProcessNode.
  destruct (GetInteger node "substatus") as [status|e]; [|reflexivity].
  rewrite (findAction_result T _ _ w0).
  pose proof (findAction_result T "Deployed" (name status) (world r)) as H.
  st_unfold.
  destruct (findAction T "Deployed" (name status) (world r)) as [w' found].
  simpl in H. rewrite <- H.
  destruct found as [action|e]; [|reflexivity].
  destruct (Preview options); simpl; [|reflexivity].
  destruct (action client node options w'). reflexivity.
Qed.

Lemma ProcessNode_result_indep client client' node options options' r r' :
  (ProcessNode T name client node options r).2
  = (ProcessNode T name client' node options' r').2.
Proof.
  rewrite (ProcessNode_result client node options r (world r)).
  rewrite (ProcessNode_result client' node options' r' (world r)).
  reflexivity.
Qed.

Lemma ProcessNode_launches client node options r status action :
  Preview options = false ->
  GetInteger node "substatus" = inl status ->
  (findAction T "Deployed" (name status) (world r)).2 = inl action ->
  ProcessNode T name client node options r
  = ({| world := world r;
        goroutines := goroutines r ++ [action client node options] |}, None).
Proof.
  intros Hp Hs Hf. unfold ProcessNode. rewrite Hs, Hp.
  pose proof (findAction_found_world _ _ _ _ Hf) as Hw.
  st_unfold.
  destruct (findAction T "Deployed" (name status) (world r)) as [w' found].
  simpl in *. subst. reflexivity.
Qed.

Lemma ProcessNode_runs client node options r status action :
  Preview options = true ->
  GetInteger node "substatus" = inl status ->
  (findAction T "Deployed" (name status) (world r)).2 = inl action ->
  ProcessNode T name client node options r
  = ({| world := (action client node options (world r)).1;
        goroutines := goroutines r |}, None).
Proof.
  intros Hp Hs Hf. unfold ProcessNode. rewrite Hs, Hp.
  pose proof (findAction_found_world _ _ _ _ Hf) as Hw.
  st_unfold.
  destruct (findAction T "Deployed" (name status) (world r)) as [w' found].
  simpl in *. subst. simpl.
  destruct (action client node options (world r)). reflexivity.
Qed.

Lemma ProcessNode_not_preview_posts client node options r :
  Preview options = false ->
  posts (world (ProcessNode T name client node options r).1) = posts (world r).
Proof.
  intros Hp. unfold ProcessNode. rewrite Hp.
  destruct (GetInteger node "substatus") as [status|e]; [|reflexivity].
  pose proof (findAction_posts T "Deployed" (name status) (world r)) as H.
  st_unfold.
  destruct (findAction T "Deployed" (name status) (world r)) as [w' found].
  destruct found; simpl in *; assumption.
Qed.

End DispatcherProperties.

(** C8. Out of preview mode the dispatcher starts the resolved action as a
    goroutine and returns without waiting for it: the calling thread has done
    nothing but what [findAction] did, and has sent no request itself.  The
    error it returns is the error of the status read, else the error of the
    resolution, else nil, whatever the action does when it runs. *)
Theorem ProcessNode_not_preview (T : gmap string (gmap string Action))
    (name : Z -> string) (client : MAASObject) (node : MaasNode)
    (options : ProcessingOptions) (r : Runtime) :
  Preview options = false ->
  (ProcessNode T name client node options r).2
  = match GetInteger node "substatus" with
    | inr e => Some e
    | inl status =>
        match (findAction T "Deployed" (name status) (world r)).2 with
        | inr e => Some e
        | inl _ => None
        end
    end
  /\ (forall status action,
        GetInteger node "substatus" = inl status ->
        (findAction T "Deployed" (name status) (world r)).2 = inl action ->
        ProcessNode T name client node options r
        = ({| world := world r;
              goroutines := goroutines r ++ [action client node options] |},
           None))
  /\ posts (world (ProcessNode T name client node options r).1)
     = posts (world r).
Proof.
  intros Hp. split; [|split].
  - apply ProcessNode_result.
  - intros status action. by apply ProcessNode_launches.
  - by apply ProcessNode_not_preview_posts.
Qed.

(** With a server that refuses the request: the dispatcher returns nil; the
    refusal is what the started call returns when it runs. *)
Lemma ProcessNode_not_preview_witness :
  ProcessNode Transitions Sample.MaasNodeStatus_String Sample.refusing
    (Sample.machine "n1" "web-01" "us-east" (inl 10%Z))
    (Sample.options [] [] false false) Sample.start
  = ({| world := {| logs := []; posts := [] |};
        goroutines :=
          [Deploy Sample.refusing
             (Sample.machine "n1" "web-01" "us-east" (inl 10%Z))
             (Sample.options [] [] false false)] |}, None)
  /\ Deploy Sample.refusing
       (Sample.machine "n1" "web-01" "us-east" (inl 10%Z))
       (Sample.options [] [] false false) {| logs := []; posts := [] |}
     = ({| logs := ["DEPLOY: web-01"];
           posts := [mkPost ["MAAS"; "api"; "1.0"; "nodes"; "n1"] "start" ∅] |},
        Some (errorString "gomaasapi: got error back from server: 409 CONFLICT")).
Proof.
  split; [|reflexivity].
  refine (proj1 (proj2 (ProcessNode_not_preview Transitions
            Sample.MaasNodeStatus_String Sample.refusing
            (Sample.machine "n1" "web-01" "us-east" (inl 10%Z))
            (Sample.options [] [] false false) Sample.start _))
          10%Z Deploy _ _); reflexivity.
Defined.




(** ** The filter engine and the batch processor *)

Section BatchProperties.

Variable T : gmap string (gmap string Action).
Variable name : Z -> string.
Variable Regexp : Type.
Variable Compile : string -> Regexp + error.
Variable MatchString : Regexp -> string -> bool.

#[local] Abbreviation loop := (ProcessAll_loop T name Regexp MatchString).
#[local] Abbreviation is_eligible := (eligible Regexp MatchString).
#[local] Abbreviation buildFilter := (buildFilter Regexp Compile).
#[local] Abbreviation matchedFilter := (matchedFilter Regexp MatchString).

Lemma buildFilter_length filter : forall results,
  buildFilter filter = inl results -> length results = length filter.
Proof.
  induction filter as [|v rest IH]; intros results H; simpl in H.
  - by inversion H.
  - destruct (Compile v); [|discriminate].
    destruct (buildFilter rest) as [rs|]; [|discriminate].
    inversion H; subst. simpl. f_equal. by apply IH.
Qed.

Lemma buildFilter_empty filter :
  buildFilter filter = inl [] <-> filter = [].
Proof.
  split.
  - intros H. apply buildFilter_length in H.
    destruct filter; [reflexivity|discriminate].
  - intros ->. reflexivity.
Qed.

(** [matches]: true iff some compiled pattern matches. *)
Lemma matchedFilter_exists include target :
  matchedFilter include target = true
  <-> exists e, e ∈ include /\ MatchString e target = true.
Proof.
  induction include as [|e rest IH]; simpl.
  - split; [discriminate|]. intros (e & He & _). by apply elem_of_nil in He.
  - destruct (MatchString e target) eqn:Hm.
    + split; [|reflexivity]. intros _. exists e. split; [left|assumption].
    + rewrite IH. split.
      * intros (e' & He' & Hm'). exists e'. split; [by right|assumption].
      * intros (e' & He' & Hm'). apply elem_of_cons in He' as [->|He'].
        -- congruence.
        -- by exists e'.
Qed.

Lemma eligible_no_hosts includeZones node : is_eligible [] includeZones node = false.
Proof. reflexivity. Qed.

Lemma eligible_no_zones includeHosts node : is_eligible includeHosts [] node = false.
Proof.
  unfold eligible, zone_passes. simpl. apply andb_false_r.
Qed.

Lemma all_ignored_cons options includeHosts node nodes r :
  all_ignored Regexp MatchString options includeHosts (node :: nodes) r
  = all_ignored Regexp MatchString options includeHosts nodes
      (all_ignored Regexp MatchString options includeHosts [node] r).
Proof.
  unfold all_ignored. destruct (Verbose options); [|reflexivity].
  simpl. by rewrite <- app_assoc.
Qed.

Lemma all_ignored_nil options includeHosts r :
  all_ignored Regexp MatchString options includeHosts [] r = r.
Proof.
  unfold all_ignored. destruct (Verbose options); [|reflexivity].
  destruct r as [[l p] g]. simpl. by rewrite app_nil_r.
Qed.

(** Machines that are not eligible are left alone by the loop: nothing is
    written in the slice and the dispatcher does not run. *)
Lemma ProcessAll_loop_ignored client options includeHosts includeZones nodes :
  forall i errors r,
    Forall (fun node => is_eligible includeHosts includeZones node = false) nodes ->
    loop client options includeHosts includeZones i nodes errors r
    = (all_ignored Regexp MatchString options includeHosts nodes r, errors).
Proof.
  induction nodes as [|node rest IH]; intros i errors r Hall.
  - simpl. by rewrite all_ignored_nil.
  - apply Forall_cons in Hall as [Hnode Hrest].
    rewrite all_ignored_cons. cbn [ProcessAll_loop].
    unfold eligible in Hnode.
    assert (all_ignored Regexp MatchString options includeHosts [node] r
            = ((if Verbose options
                then inline (log_Printf
                       (ignoring_line Regexp MatchString options includeHosts node))
                else ret ()) r).1) as ->.
    { unfold all_ignored. destruct (Verbose options); reflexivity. }
    unfold ignoring_line. fold (host_passes Regexp MatchString includeHosts node).
    fold (zone_passes Regexp MatchString includeZones node).
    destruct (host_passes Regexp MatchString includeHosts node); simpl in Hnode.
    + rewrite Hnode. unfold bind at 1.
      destruct (Verbose options); simpl; by rewrite IH.
    + unfold bind at 1.
      destruct (Verbose options); simpl; by rewrite IH.
Qed.

(** The invariant of the loop: slots below [i] are final, slot [i + j]
    receives the outcome of machine [j]. *)
Lemma ProcessAll_loop_slots client options includeHosts includeZones nodes :
  forall i errors r,
    i + length nodes <= length errors ->
    let errors' :=
      (loop client options includeHosts includeZones i nodes errors r).2 in
    length errors' = length errors
    /\ (forall j, j < i -> errors' !! j = errors !! j)
    /\ (forall j node r0,
          nodes !! j = Some node ->
          errors' !! (i + j)
          = if is_eligible includeHosts includeZones node
            then Some (ProcessNode T name client node options r0).2
            else errors !! (i + j)).
Proof.
  induction nodes as [|node rest IH]; intros i errors r Hlen; simpl in Hlen.
  - simpl. split; [reflexivity|]. split; [reflexivity|].
    intros j node r0 H. by rewrite lookup_nil in H.
  - assert (exists x r1,
      (loop client options includeHosts includeZones i (node :: rest) errors r).2
      = (loop client options includeHosts includeZones (S i) rest
           (<[i := x]> errors) r1).2
      /\ (forall r0, Some x
            = if is_eligible includeHosts includeZones node
              then Some (ProcessNode T name client node options r0).2
              else errors !! i)) as (x & r1 & Heq & Hx).
    { cbn [ProcessAll_loop].
      fold (host_passes Regexp MatchString includeHosts node).
      fold (zone_passes Regexp MatchString includeZones node).
      unfold eligible.
      destruct (lookup_lt_is_Some_2 errors i ltac:(lia)) as [old Hold].
      destruct (host_passes Regexp MatchString includeHosts node);
        [destruct (zone_passes Regexp MatchString includeZones node)|];
        simpl andb; cbv iota.
      - unfold bind at 1.
        destruct (ProcessNode T name client node options r) as [r1 err] eqn:E.
        exists err, r1. split.
        + destruct err; reflexivity.
        + intros r0. f_equal.
          rewrite (ProcessNode_result_indep T name client client node
                     options options r0 r), E. reflexivity.
      - unfold bind at 1.
        match goal with
        | |- context [(if Verbose options then ?a else ?b) r] =>
            destruct ((if Verbose options then a else b) r) as [r1 u]
        end.
        exists old, r1. rewrite list_insert_id by assumption.
        split; [reflexivity|]. intros _. by rewrite Hold.
      - unfold bind at 1.
        match goal with
        | |- context [(if Verbose options then ?a else ?b) r] =>
            destruct ((if Verbose options then a else b) r) as [r1 u]
        end.
        exists old, r1. rewrite list_insert_id by assumption.
        split; [reflexivity|]. intros _. by rewrite Hold. }
    cbv zeta. rewrite Heq.
    destruct (IH (S i) (<[i := x]> errors) r1) as (Hl & Hbelow & Hslots).
    { rewrite length_insert. lia. }
    rewrite length_insert in Hl.
    split; [assumption|]. split.
    + intros j Hj. rewrite Hbelow by lia.
      apply list_lookup_insert_ne. lia.
    + intros [|j] node' r0 Hj; simpl in Hj.
      * inversion Hj; subst node'. rewrite Nat.add_0_r.
        rewrite Hbelow by lia.
        rewrite list_lookup_insert_eq by lia. apply Hx.
      * replace (i + S j) with (S i + j) by lia.
        rewrite (Hslots j node' r0 Hj).
        destruct (is_eligible includeHosts includeZones node'); [reflexivity|].
        apply list_lookup_insert_ne. lia.
Qed.

(** The result of [ProcessAll] when both filters compile. *)
Lemma ProcessAll_compiled client nodes options r includeHosts includeZones :
  buildFilter (Include (Hosts (Filter options))) = inl includeHosts ->
  buildFilter (Include (Zones (Filter options))) = inl includeZones ->
  ProcessAll T name Regexp Compile MatchString client nodes options r
  = (let (r', errors) :=
       loop client options includeHosts includeZones 0 nodes
         (replicate (length nodes) None) r in
     (r', Returns errors)).
Proof.
  intros Hh Hz. unfold ProcessAll. rewrite Hh, Hz. reflexivity.
Qed.

End BatchProperties.

Section BatchResults.

Variable T : gmap string (gmap string Action).
Variable name : Z -> string.
Variable Regexp : Type.
Variable Compile : string -> Regexp + error.
Variable MatchString : Regexp -> string -> bool.

(** What [ProcessAll] returns, slot by slot, when both filters compile. *)
Lemma ProcessAll_returns client nodes options r includeHosts includeZones :
  buildFilter Regexp Compile (Include (Hosts (Filter options))) = inl includeHosts ->
  buildFilter Regexp Compile (Include (Zones (Filter options))) = inl includeZones ->
  exists r' errors,
    ProcessAll T name Regexp Compile MatchString client nodes options r
    = (r', Returns errors)
    /\ length errors = length nodes
    /\ forall i node r0,
         nodes !! i = Some node ->
         errors !! i
         = Some (if eligible Regexp MatchString includeHosts includeZones node
                 then (ProcessNode T name client node options r0).2
                 else None).
Proof.
  intros Hh Hz.
  rewrite (ProcessAll_compiled _ _ _ _ _ _ _ _ _ _ _ Hh Hz).
  pose proof (ProcessAll_loop_slots T name Regexp MatchString client options
                includeHosts includeZones nodes 0
                (replicate (length nodes) None) r) as H.
  rewrite length_replicate in H. specialize (H ltac:(lia)).
  destruct (ProcessAll_loop _ _ _ _ _ _ _ _ _ _ _ r) as [r' errors].
  simpl in H. destruct H as (Hl & _ & Hslots).
  exists r', errors. split; [reflexivity|]. split; [assumption|].
  intros i node r0 Hi. rewrite (Hslots i node r0 Hi).
  destruct (eligible _ _ _ _ _); [reflexivity|].
  apply lookup_replicate_2. by eapply lookup_lt_Some.
Qed.

(** X15. When the include patterns compile, [ProcessAll] returns a slice
    as long as the list of machines; slot [i] holds what the dispatcher
    returns for machine [i] when that machine passes the two tests of the
    loop, and nil when it does not. *)
Theorem ProcessAll_slots (client : MAASObject) (nodes : list MaasNode)
    (options : ProcessingOptions) (r : Runtime)
    (includeHosts includeZones : list Regexp) :
  buildFilter Regexp Compile (Include (Hosts (Filter options))) = inl includeHosts ->
  buildFilter Regexp Compile (Include (Zones (Filter options))) = inl includeZones ->
  exists r' errors,
    ProcessAll T name Regexp Compile MatchString client nodes options r
    = (r', Returns errors)
    /\ length errors = length nodes
    /\ forall i node,
         nodes !! i = Some node ->
         if eligible Regexp MatchString includeHosts includeZones node
         then forall r0, errors !! i
                         = Some (ProcessNode T name client node options r0).2
         else errors !! i = Some None.
Proof.
  intros Hh Hz.
  destruct (ProcessAll_returns client nodes options r _ _ Hh Hz)
    as (r' & errors & Heq & Hl & Hslots).
  exists r', errors. split; [assumption|]. split; [assumption|].
  intros i node Hi.
  pose proof (fun r0 => Hslots i node r0 Hi) as H.
  destruct (eligible _ _ _ _ _); [assumption|]. exact (H r).
Qed.

(** C7. When the compiled zone-include list is empty no machine passes step
    2 of the eligibility rule: every slot of the result is nil, and the
    runtime is left as it was but for the lines logged in verbose mode, which
    means that the dispatcher has run for no machine (no action line, no
    request, no goroutine). *)
Theorem empty_zone_filter_excludes (client : MAASObject) (nodes : list MaasNode)
    (options : ProcessingOptions) (r : Runtime) (includeHosts : list Regexp) :
  buildFilter Regexp Compile (Include (Hosts (Filter options))) = inl includeHosts ->
  buildFilter Regexp Compile (Include (Zones (Filter options))) = inl [] ->
  (forall node, zone_passes Regexp MatchString [] node = false)
  /\ (forall node, eligible Regexp MatchString includeHosts [] node = false)
  /\ ProcessAll T name Regexp Compile MatchString client nodes options r
     = (all_ignored Regexp MatchString options includeHosts nodes r,
        Returns (replicate (length nodes) None))
  /\ posts (world (all_ignored Regexp MatchString options includeHosts nodes r))
     = posts (world r)
  /\ goroutines (all_ignored Regexp MatchString options includeHosts nodes r)
     = goroutines r.
Proof.
  intros Hh Hz. split; [reflexivity|]. split; [apply eligible_no_zones|].
  split; [|split].
  - rewrite (ProcessAll_compiled _ _ _ _ _ _ _ _ _ _ _ Hh Hz).
    rewrite ProcessAll_loop_ignored; [reflexivity|].
    apply Forall_forall. intros node _. apply eligible_no_zones.
  - unfold all_ignored. destruct (Verbose options); reflexivity.
  - unfold all_ignored. destruct (Verbose options); reflexivity.
Qed.

(** The same happens, in the code, when the compiled host-include list is
    empty: [matchedFilter] finds no pattern that matches. *)
Lemma empty_host_filter_excludes client nodes options r includeZones :
  buildFilter Regexp Compile (Include (Hosts (Filter options))) = inl [] ->
  buildFilter Regexp Compile (Include (Zones (Filter options))) = inl includeZones ->
  (forall node, host_passes Regexp MatchString [] node = false)
  /\ ProcessAll T name Regexp Compile MatchString client nodes options r
     = (all_ignored Regexp MatchString options [] nodes r,
        Returns (replicate (length nodes) None)).
Proof.
  intros Hh Hz. split; [reflexivity|].
  rewrite (ProcessAll_compiled _ _ _ _ _ _ _ _ _ _ _ Hh Hz).
  rewrite ProcessAll_loop_ignored; [reflexivity|].
  apply Forall_forall. intros node _. reflexivity.
Qed.

(** C9. The exclude lists are not consulted: under two option values that
    differ at most in their exclude lists every machine has the same
    eligibility, and [ProcessAll] returns the same result. *)
Theorem excludes_not_consulted (client : MAASObject) (nodes : list MaasNode)
    (o1 o2 : ProcessingOptions) (r : Runtime) :
  same_but_excludes o1 o2 ->
  (forall node, eligible_under Regexp Compile MatchString o1 node
                = eligible_under Regexp Compile MatchString o2 node)
  /\ (ProcessAll T name Regexp Compile MatchString client nodes o1 r).2
     = (ProcessAll T name Regexp Compile MatchString client nodes o2 r).2.
Proof.
  intros (Hz & Hh & Hv & Hp). split.
  - intros node. unfold eligible_under. by rewrite Hz, Hh.
  - destruct (buildFilter Regexp Compile (Include (Hosts (Filter o1))))
      as [includeHosts|[msg]] eqn:H1.
    + destruct (buildFilter Regexp Compile (Include (Zones (Filter o1))))
        as [includeZones|[msg]] eqn:H2.
      * destruct (ProcessAll_returns client nodes o1 r _ _ H1 H2)
          as (r1 & e1 & -> & Hl1 & Hs1).
        rewrite Hh in H1. rewrite Hz in H2.
        destruct (ProcessAll_returns client nodes o2 r _ _ H1 H2)
          as (r2 & e2 & -> & Hl2 & Hs2).
        simpl. f_equal.
        apply (list_eq_same_length _ _ (length nodes)); [assumption..|].
        intros i x y Hi Hx Hy.
        destruct (lookup_lt_is_Some_2 nodes i Hi) as [node Hnode].
        rewrite (Hs1 i node r Hnode) in Hx. rewrite (Hs2 i node r Hnode) in Hy.
        rewrite (ProcessNode_result_indep T name client client node o1 o2 r r) in Hx.
        congruence.
      * unfold ProcessAll. rewrite <- Hh, <- Hz, H1, H2. st_unfold.
        destruct r; reflexivity.
    + unfold ProcessAll. rewrite <- Hh, H1. st_unfold.
      destruct r; reflexivity.
Qed.

End BatchResults.

(** ** The engine on examples *)

Lemma ProcessAll_slots_witness :
  exists r' errors,
    ProcessAll Transitions Sample.MaasNodeStatus_String Sample.Literal
      Sample.Compile Sample.MatchString Sample.accepting
      [ Sample.machine "n1" "web-01" "us-east" (inl 4%Z);
        Sample.machine "n2" "web-02" "us-west" (inl 10%Z);
        Sample.machine "n3" "db-02" "us-east" (inr (errorString "no substatus")) ]
      (Sample.options ["^us-east$"] ["^web-"; "db"] true true) Sample.start
    = (r', Returns errors)
    /\ length errors = 3
    /\ forall i node,
         [ Sample.machine "n1" "web-01" "us-east" (inl 4%Z);
           Sample.machine "n2" "web-02" "us-west" (inl 10%Z);
           Sample.machine "n3" "db-02" "us-east" (inr (errorString "no substatus")) ]
         !! i = Some node ->
         if eligible Sample.Literal Sample.MatchString
              [ Sample.mkLiteral true false "web-"; Sample.mkLiteral false false "db" ]
              [ Sample.mkLiteral true true "us-east" ] node
         then forall r0,
                errors !! i
                = Some (ProcessNode Transitions Sample.MaasNodeStatus_String
                          Sample.accepting node
                          (Sample.options ["^us-east$"] ["^web-"; "db"] true true)
                          r0).2
         else errors !! i = Some None.
Proof.
  apply (ProcessAll_slots Transitions Sample.MaasNodeStatus_String Sample.Literal
           Sample.Compile Sample.MatchString); reflexivity.
Defined.

Lemma empty_zone_filter_excludes_witness :
  ProcessAll Transitions Sample.MaasNodeStatus_String Sample.Literal
    Sample.Compile Sample.MatchString Sample.accepting
    [ Sample.machine "n1" "web-01" "us-east" (inl 4%Z) ]
    (Sample.options [] ["^web-"] true false) Sample.start
  = ({| world :=
          {| logs := ["[info] ignoring node 'web-01' as its zone 'us-east' didn't match include zone name filter '[]'"];
             posts := [] |};
        goroutines := [] |},
     Returns [None]).
Proof.
  refine (proj1 (proj2 (proj2
            (empty_zone_filter_excludes Transitions Sample.MaasNodeStatus_String
               Sample.Literal Sample.Compile Sample.MatchString Sample.accepting
               [ Sample.machine "n1" "web-01" "us-east" (inl 4%Z) ]
               (Sample.options [] ["^web-"] true false) Sample.start
               [ Sample.mkLiteral true false "web-" ] _ _)))); reflexivity.
Defined.

Lemma excludes_not_consulted_witness :
  (ProcessAll Transitions Sample.MaasNodeStatus_String Sample.Literal
     Sample.Compile Sample.MatchString Sample.accepting
     [ Sample.machine "n1" "web-01" "us-east" (inl 4%Z) ]
     {| Filter := {| Zones := {| Include := ["^us-east$"]; Exclude := ["^us-"] |};
                     Hosts := {| Include := ["^web-"]; Exclude := ["^web-01$"] |} |};
        Verbose := false; Preview := true |} Sample.start).2
  = (ProcessAll Transitions Sample.MaasNodeStatus_String Sample.Literal
       Sample.Compile Sample.MatchString Sample.accepting
       [ Sample.machine "n1" "web-01" "us-east" (inl 4%Z) ]
       (Sample.options ["^us-east$"] ["^web-"] false true) Sample.start).2.
Proof.
  refine (proj2 (excludes_not_consulted Transitions Sample.MaasNodeStatus_String
                   Sample.Literal Sample.Compile Sample.MatchString
                   Sample.accepting _ _ _ Sample.start _)).
  repeat split.
Defined.

(** C1. In the code an empty host-include list matches no hostname, against
    the comment of the source ("For hostnames we always match on an empty
    filter"): with host-include empty and zone-include "^us-east$", two
    machines of zone "us-east" are left alone, the dispatcher runs for
    neither and both slots are nil, although the status of the second cannot
    be read.  With host-include "^web-" the same machines are dispatched. *)
Theorem empty_host_filter_matches_nothing :
  ProcessAll Transitions Sample.MaasNodeStatus_String Sample.Literal
    Sample.Compile Sample.MatchString Sample.accepting
    [ Sample.machine "n1" "web-01" "us-east" (inl 4%Z);
      Sample.machine "n2" "web-02" "us-east" (inr (errorString "no substatus")) ]
    (Sample.options ["^us-east$"] [] false true) Sample.start
  = (Sample.start, Returns [None; None])
  /\ ProcessAll Transitions Sample.MaasNodeStatus_String Sample.Literal
       Sample.Compile Sample.MatchString Sample.accepting
       [ Sample.machine "n1" "web-01" "us-east" (inl 4%Z);
         Sample.machine "n2" "web-02" "us-east" (inr (errorString "no substatus")) ]
       (Sample.options ["^us-east$"] ["^web-"] false true) Sample.start
     = ({| world := {| logs := ["AQUIRE: web-01"]; posts := [] |};
           goroutines := [] |},
        Returns [None; Some (errorString "no substatus")]).
Proof. split; reflexivity. Qed.

(** C5. The slots of [ProcessAll] do not follow the eligibility rule of the
    specification when the host-include list is empty: with host-include
    empty and zone-include "^us-east$", a machine of zone "us-east" whose
    status cannot be read is eligible by the rule and the dispatcher returns
    the read error for it, but its slot is nil. *)
Theorem ProcessAll_slot_empty_host_filter :
  spec_eligible Sample.Literal Sample.MatchString
    [] [Sample.mkLiteral true true "us-east"]
    (Sample.machine "n2" "web-02" "us-east" (inr (errorString "no substatus")))
  = true
  /\ (forall r0,
        (ProcessNode Transitions Sample.MaasNodeStatus_String Sample.accepting
           (Sample.machine "n2" "web-02" "us-east"
              (inr (errorString "no substatus")))
           (Sample.options ["^us-east$"] [] false true) r0).2
        = Some (errorString "no substatus"))
  /\ ProcessAll Transitions Sample.MaasNodeStatus_String Sample.Literal
       Sample.Compile Sample.MatchString Sample.accepting
       [ Sample.machine "n2" "web-02" "us-east"
           (inr (errorString "no substatus")) ]
       (Sample.options ["^us-east$"] [] false true) Sample.start
     = (Sample.start, Returns [None]).
Proof. repeat split. Qed.

(** * Further properties of the engine *)

(** ** The filter engine *)

Section FilterResults.

Variable Regexp : Type.
Variable Compile : string -> Regexp + error.
Variable MatchString : Regexp -> string -> bool.

(** X1. [buildFilter] succeeds exactly when every pattern compiles, and its
    result is then the compiled patterns, one for one and in order. *)
Theorem buildFilter_compiles_all (filter : list string) (results : list Regexp) :
  buildFilter Regexp Compile filter = inl results
  <-> Forall2 (fun v r => Compile v = inl r) filter results.
Proof.
  revert results. induction filter as [|v rest IH]; intros results; simpl.
  - split.
    + intros H. inversion H. constructor.
    + intros H. inversion H. reflexivity.
  - split.
    + intros H. destruct (Compile v) as [c|] eqn:Hc; [|discriminate].
      destruct (buildFilter Regexp Compile rest) as [rs|]; [|discriminate].
      inversion H; subst. constructor; [assumption|]. by apply IH.
    + intros H. inversion H as [|? c ? rs Hc Hrest]; subst.
      rewrite Hc. apply IH in Hrest. by rewrite Hrest.
Qed.

Lemma buildFilter_error_split (filter : list string) (e : error) :
  buildFilter Regexp Compile filter = inr e
  <-> exists pre v post compiled,
        filter = pre ++ v :: post
        /\ Forall2 (fun v r => Compile v = inl r) pre compiled
        /\ Compile v = inr e.
Proof.
  induction filter as [|v rest IH]; simpl.
  - split; [discriminate|].
    intros (pre & v & post & compiled & Heq & _). by destruct pre.
  - split.
    + destruct (Compile v) as [c|e'] eqn:Hc.
      * destruct (buildFilter Regexp Compile rest) as [rs|e'] eqn:Hrest;
          [discriminate|].
        intros H. inversion H; subst e'.
        destruct (proj1 IH eq_refl) as (pre & v' & post & compiled & -> & Hpre & Hv).
        exists (v :: pre), v', post, (c :: compiled).
        split; [reflexivity|]. split; [|assumption]. by constructor.
      * intros H. inversion H; subst e'.
        exists [], v, rest, []. split; [reflexivity|]. split; [constructor|assumption].
    + intros (pre & v' & post & compiled & Heq & Hpre & Hv).
      destruct pre as [|p pre]; simpl in Heq; inversion Heq; subst.
      * by rewrite Hv.
      * inversion Hpre as [|? c ? cs Hc Hcs]; subst. rewrite Hc.
        assert (buildFilter Regexp Compile (pre ++ v' :: post) = inr e) as ->;
          [|reflexivity].
        apply IH. by exists pre, v', post, cs.
Qed.

(** X2. [buildFilter] fails exactly when some pattern does not compile, and
    the error it returns is that of the first such pattern; the patterns
    after it are not looked at. *)
Theorem buildFilter_first_error (filter : list string) (e : error) :
  buildFilter Regexp Compile filter = inr e
  <-> exists pre v post compiled,
        filter = pre ++ v :: post
        /\ Forall2 (fun v r => Compile v = inl r) pre compiled
        /\ Compile v = inr e.
Proof. apply buildFilter_error_split. Qed.

(** X3. [matchedFilter] is a disjunction: it is true iff some pattern of the
    list matches the target, wherever the pattern stands in the list. *)
Theorem matchedFilter_any (include : list Regexp) (target : string) :
  matchedFilter Regexp MatchString include target = true
  <-> exists e, e ∈ include /\ MatchString e target = true.
Proof. apply matchedFilter_exists. Qed.

(** X4. A machine is eligible iff some host pattern matches its hostname and
    some zone pattern matches its zone. *)
Theorem eligible_iff (includeHosts includeZones : list Regexp) (node : MaasNode) :
  eligible Regexp MatchString includeHosts includeZones node = true
  <-> (exists h, h ∈ includeHosts /\ MatchString h (Hostname node) = true)
      /\ (exists z, z ∈ includeZones /\ MatchString z (Zone node) = true).
Proof.
  unfold eligible, host_passes, zone_passes.
  rewrite andb_true_iff, !andb_true_iff.
  rewrite <- !(matchedFilter_exists Regexp MatchString).
  assert (forall l : list Regexp, (Z.of_nat (length l) >=? 0)%Z = true) as Hlen.
  { intros l. apply Z.geb_le. lia. }
  rewrite !Hlen. tauto.
Qed.

End FilterResults.

(** ** The action set *)

(** X6. Out of preview mode Deploy, Aquire and Commission log their line,
    send one request (start and commission to the machine, by its
    identifier; acquire to the collection of nodes, with the hostname as
    name) and return the answer of the server as it is. *)
Theorem calling_actions_propagate (client : MAASObject) (node : MaasNode)
    (options : ProcessingOptions) (w : World) :
  Preview options = false ->
  Deploy client node options w
  = (let req := mkPost (URI client ++ ["nodes"; ID node]) "start" ∅ in
     ({| logs := logs w ++ ["DEPLOY: " +:+ Hostname node];
         posts := posts w ++ [req] |}, service client req))
  /\ Aquire client node options w
     = (let req := mkPost (URI client ++ ["nodes"]) "acquire"
                     {[ "name" := [Hostname node] ]} in
        ({| logs := logs w ++ ["AQUIRE: " +:+ Hostname node];
            posts := posts w ++ [req] |}, service client req))
  /\ Commission client node options w
     = (let req := mkPost (URI client ++ ["nodes"; ID node]) "commission" ∅ in
        ({| logs := logs w ++ ["COMISSION: " +:+ Hostname node];
            posts := posts w ++ [req] |}, service client req)).
Proof.
  intros Hp. unfold Deploy, Aquire, Commission. st_unfold. rewrite Hp. simpl.
  rewrite <- !app_assoc. simpl.
  repeat match goal with
         | |- context [service ?c ?r] => destruct (service c r)
         end; auto.
Qed.

Lemma calling_actions_propagate_witness :
  Aquire Sample.refusing (Sample.machine "n1" "web-01" "us-east" (inl 4%Z))
    (Sample.options [] [] false false) {| logs := []; posts := [] |}
  = ({| logs := ["AQUIRE: web-01"];
        posts := [mkPost ["MAAS"; "api"; "1.0"; "nodes"] "acquire"
                    {[ "name" := ["web-01"] ]}] |},
     Some (errorString "gomaasapi: got error back from server: 409 CONFLICT")).
Proof.
  refine (proj1 (proj2 (calling_actions_propagate Sample.refusing
            (Sample.machine "n1" "web-01" "us-east" (inl 4%Z))
            (Sample.options [] [] false false) {| logs := []; posts := [] |} _))).
  reflexivity.
Defined.

(** ** The dispatcher *)

Section DispatcherResults.

Variable T : gmap string (gmap string Action).
Variable name : Z -> string.

Lemma findAction_resolves target current w action :
  (findAction T target current w).2 = inl action
  <-> T !! target ≫= (.!! current) = Some action.
Proof.
  rewrite findAction_result.
  destruct (T !! target) as [targets|]; simpl; [|split; discriminate].
  destruct (targets !! current); split; congruence.
Qed.

Lemma resolved_action_Some node action :
  resolved_action T name node = Some action
  <-> exists status,
        GetInteger node "substatus" = inl status
        /\ forall w, (findAction T "Deployed" (name status) w).2 = inl action.
Proof.
  unfold resolved_action.
  destruct (GetInteger node "substatus") as [status|e].
  - split.
    + intros H. exists status. split; [reflexivity|].
      intros w. by apply findAction_resolves.
    + intros (status' & Hs & H). inversion Hs; subst status'.
      apply (findAction_resolves _ _ {| logs := []; posts := [] |}), H.
  - split; [discriminate|]. intros (status & Hs & _). discriminate.
Qed.

Lemma ProcessNode_nil_resolved (client : MAASObject) (node : MaasNode)
    (options : ProcessingOptions) (r : Runtime) :
  (ProcessNode T name client node options r).2 = None
  <-> is_Some (resolved_action T name node).
Proof.
  rewrite (ProcessNode_result T name client node options r (world r)).
  unfold resolved_action.
  destruct (GetInteger node "substatus") as [status|e].
  - rewrite findAction_result.
    destruct (T !! "Deployed") as [targets|]; simpl.
    + destruct (targets !! name status); simpl.
      * split; [eauto|reflexivity].
      * split; [discriminate|]. by intros [? ?].
    + split; [discriminate|]. by intros [? ?].
  - split; [discriminate|]. by intros [? ?].
Qed.

Lemma ProcessNode_error_cases (client : MAASObject) (node : MaasNode)
    (options : ProcessingOptions) (r : Runtime) (e : error) :
  (ProcessNode T name client node options r).2 = Some e ->
  (GetInteger node "substatus" = inr e
   /\ (ProcessNode T name client node options r).1 = r)
  \/ (exists status line,
        GetInteger node "substatus" = inl status
        /\ findAction T "Deployed" (name status) (world r)
           = ({| logs := logs (world r) ++ [line]; posts := posts (world r) |},
              inr e)
        /\ (ProcessNode T name client node options r).1
           = {| world := {| logs := logs (world r) ++ [line];
                            posts := posts (world r) |};
                goroutines := goroutines r |}).
Proof.
  unfold ProcessNode.
  destruct (GetInteger node "substatus") as [status|e'].
  - intros H. right. exists status.
    unfold findAction in *. st_unfold.
    destruct (T !! "Deployed") as [targets|]; simpl in *.
    + destruct (targets !! name status) as [action|]; simpl in *.
      * destruct (Preview options); simpl in H.
        -- destruct (action client node options (world r)). discriminate.
        -- discriminate.
      * inversion H; subst e. eexists. split; [reflexivity|]. split; reflexivity.
    + inversion H; subst e. eexists. split; [reflexivity|]. split; reflexivity.
  - intros H. left. simpl in H. inversion H; subst. split; reflexivity.
Qed.

(** X7. The dispatcher returns nil exactly when it has resolved an action
    for the machine: the status can be read and the table has an entry for
    it under "Deployed". *)
Theorem ProcessNode_nil_iff_resolved (client : MAASObject) (node : MaasNode)
    (options : ProcessingOptions) (r : Runtime) :
  (ProcessNode T name client node options r).2 = None
  <-> is_Some (resolved_action T name node).
Proof. apply ProcessNode_nil_resolved. Qed.

(** X8. When the dispatcher returns an error no action has run and none
    has been queued: either the status could not be read and nothing at all
    has happened, or the resolution failed and the only effect is the
    warning of [findAction] in the log. *)
Theorem ProcessNode_error_runs_nothing (client : MAASObject) (node : MaasNode)
    (options : ProcessingOptions) (r : Runtime) (e : error) :
  (ProcessNode T name client node options r).2 = Some e ->
  (GetInteger node "substatus" = inr e
   /\ (ProcessNode T name client node options r).1 = r)
  \/ (exists status line,
        GetInteger node "substatus" = inl status
        /\ findAction T "Deployed" (name status) (world r)
           = ({| logs := logs (world r) ++ [line]; posts := posts (world r) |},
              inr e)
        /\ (ProcessNode T name client node options r).1
           = {| world := {| logs := logs (world r) ++ [line];
                            posts := posts (world r) |};
                goroutines := goroutines r |}).
Proof. apply ProcessNode_error_cases. Qed.

End DispatcherResults.

Lemma ProcessNode_error_runs_nothing_witness :
  exists status line,
    GetInteger (Sample.machine "n1" "web-01" "us-east" (inl 16%Z)) "substatus"
    = inl status
    /\ findAction Transitions "Deployed" (Sample.MaasNodeStatus_String status)
         (world Sample.start)
       = ({| logs := logs (world Sample.start) ++ [line];
             posts := posts (world Sample.start) |},
          inr (UnknownTransitionError "Invalid" "Deployed"))
    /\ (ProcessNode Transitions Sample.MaasNodeStatus_String Sample.accepting
          (Sample.machine "n1" "web-01" "us-east" (inl 16%Z))
          (Sample.options [] [] false false) Sample.start).1
       = {| world := {| logs := logs (world Sample.start) ++ [line];
                        posts := posts (world Sample.start) |};
            goroutines := goroutines Sample.start |}.
Proof.
  destruct (ProcessNode_error_runs_nothing Transitions Sample.MaasNodeStatus_String
              Sample.accepting (Sample.machine "n1" "web-01" "us-east" (inl 16%Z))
              (Sample.options [] [] false false) Sample.start
              (UnknownTransitionError "Invalid" "Deployed") eq_refl)
    as [[H _]|H].
  - discriminate H.
  - exact H.
Defined.

(** X9. With the table of the source the dispatcher never fails for want of
    a target: its error is the error of the status read, or
    UnknownTransitionError when the name of the status is none of the
    sixteen states of the table, and nil otherwise. *)
Theorem ProcessNode_source_errors (name : Z -> string) (client : MAASObject)
    (node : MaasNode) (options : ProcessingOptions) (r : Runtime) :
  (ProcessNode Transitions name client node options r).2
  = match GetInteger node "substatus" with
    | inr e => Some e
    | inl status =>
        if bool_decide
             (name status
              ∈ [ "New"; "Deployed"; "Ready"; "Allocated"; "Retired"; "Reserved";
                  "Releasing"; "DiskErasing"; "Deploying"; "Commissioning";
                  "Missing"; "FailedReleasing"; "FailedDiskErasing";
                  "FailedDeployment"; "Broken"; "FailedCommissioning" ])
        then None
        else Some (UnknownTransitionError (name status) "Deployed")
    end.
Proof.
  rewrite (ProcessNode_result Transitions name client node options r (world r)).
  destruct (GetInteger node "substatus") as [status|e]; [|reflexivity].
  rewrite findAction_result.
  pose proof (Transitions_Deployed (name status)) as H.
  destruct (Transitions !! "Deployed") as [targets|] eqn:Ht;
    [|unfold Transitions in Ht; by rewrite lookup_singleton_eq in Ht].
  simpl in H. rewrite H. clear H Ht.
  repeat match goal with
         | |- context [String.eqb (name status) ?s] =>
             destruct (String.eqb_spec (name status) s) as [->|?];
             [ reflexivity | ]
         end.
  rewrite bool_decide_eq_false_2; [reflexivity|].
  rewrite !elem_of_cons, elem_of_nil. tauto.
Qed.

(** ** The batch processor *)

Section BatchEffects.

Variable T : gmap string (gmap string Action).
Variable name : Z -> string.
Variable Regexp : Type.
Variable Compile : string -> Regexp + error.
Variable MatchString : Regexp -> string -> bool.

#[local] Abbreviation loop' := (ProcessAll_loop T name Regexp MatchString).
#[local] Abbreviation visit' := (visit T name Regexp MatchString).

(** One turn of the loop. *)
Lemma ProcessAll_loop_cons client options includeHosts includeZones i node rest
    errors r :
  loop' client options includeHosts includeZones i (node :: rest) errors r
  = (let (r1, res) := visit' client options includeHosts includeZones node r in
     loop' client options includeHosts includeZones (S i) rest
       (match res with Some err => <[i := err]> errors | None => errors end) r1).
Proof.
  cbn [ProcessAll_loop]. unfold visit, eligible, ignoring_line.
  fold (host_passes Regexp MatchString includeHosts node).
  fold (zone_passes Regexp MatchString includeZones node).
  destruct (host_passes Regexp MatchString includeHosts node);
    [destruct (zone_passes Regexp MatchString includeZones node)|];
    cbn [andb]; unfold bind, ret.
  - destruct (ProcessNode T name client node options r) as [r1 [e|]]; reflexivity.
  - destruct (Verbose options); [|reflexivity].
    destruct (inline _ r). reflexivity.
  - destruct (Verbose options); [|reflexivity].
    destruct (inline _ r). reflexivity.
Qed.

Lemma ProcessAll_loop_nil client options includeHosts includeZones i errors r :
  loop' client options includeHosts includeZones i [] errors r = (r, errors).
Proof. reflexivity. Qed.

(** The loop writes only in the slots of its machines: what lies beyond
    them in the slice is carried along. *)
Lemma ProcessAll_loop_beyond client options includeHosts includeZones nodes extra :
  forall i errors r,
    i + length nodes <= length errors ->
    loop' client options includeHosts includeZones i nodes (errors ++ extra) r
    = (let (r', errors') :=
         loop' client options includeHosts includeZones i nodes errors r in
       (r', errors' ++ extra)).
Proof.
  induction nodes as [|node rest IH]; intros i errors r Hlen; simpl in Hlen.
  - reflexivity.
  - rewrite !ProcessAll_loop_cons.
    destruct (visit' client options includeHosts includeZones node r) as [r1 [err|]].
    + rewrite insert_app_l by lia. apply IH. rewrite length_insert. lia.
    + apply IH. lia.
Qed.

(** ... and so is what lies before the index it starts from. *)
Lemma ProcessAll_loop_before client options includeHosts includeZones nodes before :
  forall i errors r,
    loop' client options includeHosts includeZones (length before + i) nodes
      (before ++ errors) r
    = (let (r', errors') :=
         loop' client options includeHosts includeZones i nodes errors r in
       (r', before ++ errors')).
Proof.
  induction nodes as [|node rest IH]; intros i errors r.
  - reflexivity.
  - rewrite !ProcessAll_loop_cons.
    destruct (visit' client options includeHosts includeZones node r) as [r1 [err|]].
    + rewrite insert_app_r. rewrite <- Nat.add_succ_r. apply IH.
    + rewrite <- Nat.add_succ_r. apply IH.
Qed.

Lemma ProcessAll_loop_app client options includeHosts includeZones nodes1 nodes2 :
  forall i errors r,
    loop' client options includeHosts includeZones i (nodes1 ++ nodes2) errors r
    = (let (r1, errors1) :=
         loop' client options includeHosts includeZones i nodes1 errors r in
       loop' client options includeHosts includeZones (i + length nodes1) nodes2
         errors1 r1).
Proof.
  induction nodes1 as [|node rest IH]; intros i errors r.
  - simpl. by rewrite Nat.add_0_r.
  - rewrite <- app_comm_cons, !ProcessAll_loop_cons.
    destruct (visit' client options includeHosts includeZones node r) as [r1 res].
    rewrite IH. simpl length. by rewrite Nat.add_succ_r.
Qed.

Lemma ProcessAll_loop_length client options includeHosts includeZones nodes i errors r :
  i + length nodes <= length errors ->
  length (loop' client options includeHosts includeZones i nodes errors r).2
  = length errors.
Proof.
  intros H.
  apply (ProcessAll_loop_slots T name Regexp MatchString client options
           includeHosts includeZones nodes i errors r H).
Qed.




(** The effects of one turn in preview mode, when the actions of the table
    send nothing in that mode. *)
Lemma visit_preview client options includeHosts includeZones node r :
  quiet_in_preview T ->
  Preview options = true ->
  posts (world (visit' client options includeHosts includeZones node r).1)
  = posts (world r)
  /\ goroutines (visit' client options includeHosts includeZones node r).1
     = goroutines r.
Proof.
  intros Hq Hp. unfold visit.
  destruct (eligible Regexp MatchString includeHosts includeZones node).
  - unfold bind, ret.
    destruct (resolved_action T name node) as [action|] eqn:Hres.
    + pose proof Hres as Hres'.
      apply resolved_action_Some in Hres as (status & Hs & Hf).
      rewrite (ProcessNode_runs T name client node options r status action
                 Hp Hs (Hf _)). simpl. split; [|reflexivity].
      unfold resolved_action in Hres'. rewrite Hs in Hres'.
      by apply (Hq (name status)).
    + destruct (ProcessNode T name client node options r) as [r1 [e|]] eqn:E.
      * destruct (ProcessNode_error_cases T name client node options r e)
          as [[_ H]|(status & line & _ & _ & H)];
          [by rewrite E| |]; rewrite E in H; simpl in H; subst r1; simpl;
          split; reflexivity.
      * assert (is_Some (resolved_action T name node)) as [a Ha].
        { apply (ProcessNode_nil_resolved T name client node options r).
          by rewrite E. }
        congruence.
  - unfold bind, ret. destruct (Verbose options); split; reflexivity.
Qed.

Lemma ProcessAll_loop_preview client options includeHosts includeZones nodes :
  quiet_in_preview T ->
  Preview options = true ->
  forall i errors r,
    posts (world (loop' client options includeHosts includeZones i nodes errors r).1)
    = posts (world r)
    /\ goroutines (loop' client options includeHosts includeZones i nodes errors r).1
       = goroutines r.
Proof.
  intros Hq Hp. induction nodes as [|node rest IH]; intros i errors r.
  - split; reflexivity.
  - rewrite ProcessAll_loop_cons.
    destruct (visit_preview client options includeHosts includeZones node r Hq Hp)
      as [Hposts Hgo].
    destruct (visit' client options includeHosts includeZones node r) as [r1 res].
    simpl in Hposts, Hgo.
    destruct (IH (S i) (match res with
                        | Some err => <[i:=err]> errors
                        | None => errors
                        end) r1) as [IHp IHg].
    rewrite IHp, IHg. split; assumption.
Qed.

End BatchEffects.

(** The actions of the table of the source send nothing in preview mode. *)
Lemma Transitions_quiet : quiet_in_preview Transitions.
Proof.
  intros current action client node options w H Hp.
  rewrite Transitions_Deployed in H.
  repeat match type of H with
         | context [String.eqb current ?s] =>
             destruct (String.eqb current s)
         end;
    inversion H; subst action;
    unfold Commission, Done, Aquire, Deploy, AdminState, Wait, Fail;
    st_unfold; rewrite ?Hp; reflexivity.
Qed.

Section BatchTheorems.

Variable T : gmap string (gmap string Action).
Variable name : Z -> string.
Variable Regexp : Type.
Variable Compile : string -> Regexp + error.
Variable MatchString : Regexp -> string -> bool.

(** X5. A host-include pattern that does not compile ends the process
    before any machine is looked at: [ProcessAll] logs the error of the first
    such pattern and exits with code 1, whatever the zone patterns are; the
    same goes for a zone-include pattern once the host patterns compile. *)
Theorem ProcessAll_invalid_pattern (client : MAASObject) (nodes : list MaasNode)
    (options : ProcessingOptions) (r : Runtime)
    (pre : list string) (v : string) (post : list string)
    (compiled : list Regexp) (msg : string) :
  Forall2 (fun v r => Compile v = inl r) pre compiled ->
  Compile v = inr (errorString msg) ->
  (Include (Hosts (Filter options)) = pre ++ v :: post ->
   ProcessAll T name Regexp Compile MatchString client nodes options r
   = ({| world :=
           {| logs := logs (world r)
                ++ ["[error] invalid regular expression for include filter '"
                    +:+ fmt_strings (Include (Hosts (Filter options)))
                    +:+ "' : " +:+ msg];
              posts := posts (world r) |};
         goroutines := goroutines r |}, Exits 1))
  /\ (forall includeHosts,
        buildFilter Regexp Compile (Include (Hosts (Filter options)))
        = inl includeHosts ->
        Include (Zones (Filter options)) = pre ++ v :: post ->
        ProcessAll T name Regexp Compile MatchString client nodes options r
        = ({| world :=
                {| logs := logs (world r)
                     ++ ["[error] invalid regular expression for include filter '"
                         +:+ fmt_strings (Include (Zones (Filter options)))
                         +:+ "' : " +:+ msg];
                   posts := posts (world r) |};
              goroutines := goroutines r |}, Exits 1)).
Proof.
  intros Hpre Hv.
  assert (buildFilter Regexp Compile (pre ++ v :: post) = inr (errorString msg))
    as Hfail.
  { apply buildFilter_error_split. by exists pre, v, post, compiled. }
  split.
  - intros Hh. rewrite <- Hh in Hfail.
    unfold ProcessAll. rewrite Hfail. reflexivity.
  - intros includeHosts Hh Hz. rewrite <- Hz in Hfail.
    unfold ProcessAll. rewrite Hh, Hfail. reflexivity.
Qed.


(** X12. The result of [ProcessAll] depends on the options through the two
    include lists only: with the same include lists it is the same in
    preview mode and out of it, verbose or not, whatever the client and the
    state the program is in. *)
Theorem ProcessAll_result_by_includes (client1 client2 : MAASObject)
    (nodes : list MaasNode) (o1 o2 : ProcessingOptions) (r1 r2 : Runtime) :
  Include (Hosts (Filter o1)) = Include (Hosts (Filter o2)) ->
  Include (Zones (Filter o1)) = Include (Zones (Filter o2)) ->
  (ProcessAll T name Regexp Compile MatchString client1 nodes o1 r1).2
  = (ProcessAll T name Regexp Compile MatchString client2 nodes o2 r2).2.
Proof.
  intros Hh Hz.
  destruct (buildFilter Regexp Compile (Include (Hosts (Filter o1))))
    as [includeHosts|[msg]] eqn:H1.
  - destruct (buildFilter Regexp Compile (Include (Zones (Filter o1))))
      as [includeZones|[msg]] eqn:H2.
    + destruct (ProcessAll_returns T name Regexp Compile MatchString
                  client1 nodes o1 r1 _ _ H1 H2) as (r1' & e1 & -> & Hl1 & Hs1).
      rewrite Hh in H1. rewrite Hz in H2.
      destruct (ProcessAll_returns T name Regexp Compile MatchString
                  client2 nodes o2 r2 _ _ H1 H2) as (r2' & e2 & -> & Hl2 & Hs2).
      simpl. f_equal.
      apply (list_eq_same_length _ _ (length nodes)); [assumption..|].
      intros i x y Hi Hx Hy.
      destruct (lookup_lt_is_Some_2 nodes i Hi) as [node Hnode].
      rewrite (Hs1 i node r1 Hnode) in Hx. rewrite (Hs2 i node r1 Hnode) in Hy.
      rewrite (ProcessNode_result_indep T name client1 client2 node o1 o2 r1 r1) in Hx.
      congruence.
    + unfold ProcessAll. rewrite <- Hh, <- Hz, H1, H2. st_unfold.
      destruct r1, r2; reflexivity.
  - unfold ProcessAll. rewrite <- Hh, H1. st_unfold.
    destruct r1, r2; reflexivity.
Qed.

(** X13. A batch can be cut in two: running [ProcessAll] on the machines
    of [nodes1] and then, from the state reached, on those of [nodes2] leaves
    the program in the state one run on [nodes1 ++ nodes2] leaves it in, and
    the result of that run is the two results put end to end. *)
Theorem ProcessAll_app (client : MAASObject) (nodes1 nodes2 : list MaasNode)
    (options : ProcessingOptions) (r : Runtime)
    (includeHosts includeZones : list Regexp) :
  buildFilter Regexp Compile (Include (Hosts (Filter options))) = inl includeHosts ->
  buildFilter Regexp Compile (Include (Zones (Filter options))) = inl includeZones ->
  exists r1 errors1 r2 errors2,
    ProcessAll T name Regexp Compile MatchString client nodes1 options r
    = (r1, Returns errors1)
    /\ ProcessAll T name Regexp Compile MatchString client nodes2 options r1
       = (r2, Returns errors2)
    /\ ProcessAll T name Regexp Compile MatchString client (nodes1 ++ nodes2)
         options r
       = (r2, Returns (errors1 ++ errors2)).
Proof.
  intros Hh Hz.
  rewrite !(ProcessAll_compiled _ _ _ _ _ _ _ _ _ _ _ Hh Hz).
  rewrite length_app, replicate_add, ProcessAll_loop_app.
  rewrite ProcessAll_loop_beyond by (rewrite length_replicate; lia).
  pose proof (ProcessAll_loop_length T name Regexp MatchString client options
                includeHosts includeZones nodes1 0
                (replicate (length nodes1) None) r) as Hl.
  rewrite length_replicate in Hl. specialize (Hl ltac:(lia)).
  destruct (ProcessAll_loop T name Regexp MatchString client options includeHosts
              includeZones 0 nodes1 (replicate (length nodes1) None) r)
    as [r1 errors1].
  simpl in Hl. exists r1, errors1.
  rewrite !Nat.add_0_l.
  pose proof (ProcessAll_loop_before T name Regexp MatchString client options
                includeHosts includeZones nodes2 errors1 0
                (replicate (length nodes2) None) r1) as Hb.
  rewrite Hl, Nat.add_0_r in Hb. rewrite Hb.
  rewrite (ProcessAll_compiled _ _ _ _ _ _ _ _ _ _ _ Hh Hz).
  destruct (ProcessAll_loop T name Regexp MatchString client options includeHosts
              includeZones 0 nodes2 (replicate (length nodes2) None) r1)
    as [r2 errors2].
  exists r2, errors2. split; [reflexivity|]. split; reflexivity.
Qed.

End BatchTheorems.

(** X11. With the table of the source, in preview mode, [ProcessAll] sends
    nothing to the server and starts no goroutine, whatever the machines and
    the patterns. *)
Theorem ProcessAll_preview_sends_nothing (name : Z -> string) (Regexp : Type)
    (Compile : string -> Regexp + error) (MatchString : Regexp -> string -> bool)
    (client : MAASObject) (nodes : list MaasNode) (options : ProcessingOptions)
    (r : Runtime) :
  Preview options = true ->
  posts (world (ProcessAll Transitions name Regexp Compile MatchString
                  client nodes options r).1) = posts (world r)
  /\ goroutines (ProcessAll Transitions name Regexp Compile MatchString
                  client nodes options r).1 = goroutines r.
Proof.
  intros Hp. unfold ProcessAll.
  destruct (buildFilter Regexp Compile (Include (Hosts (Filter options))))
    as [includeHosts|[msg]]; [|split; reflexivity].
  destruct (buildFilter Regexp Compile (Include (Zones (Filter options))))
    as [includeZones|[msg]]; [|split; reflexivity].
  pose proof (ProcessAll_loop_preview Transitions name Regexp MatchString client
                options includeHosts includeZones nodes Transitions_quiet Hp 0
                (replicate (length nodes) None) r) as H.
  unfold bind, ret.
  destruct (ProcessAll_loop _ _ _ _ _ _ _ _ _ _ _ r). exact H.
Qed.

(** X14. Of the states of the declared lifecycle graph, "FailedEraseDisk" is
    the only one for which the table has no entry under "Deployed". *)
Theorem chart_states_without_transition (s : string) :
  (exists t, chart_step defaultStateMachine s t
             \/ chart_step defaultStateMachine t s) ->
  (Transitions !! "Deployed" ≫= (.!! s) = None <-> s = "FailedEraseDisk").
Proof.
  intros (t & H). unfold chart_step in H. rewrite chart_edges_default in H.
  rewrite !elem_of_cons, !elem_of_nil in H.
  rewrite Transitions_Deployed.
  assert (s ∈ [ "New"; "Commissioning"; "FailedCommissioning"; "Ready";
                "Deploying"; "Allocated"; "Deployed"; "FailedDeployment";
                "Broken"; "Releasing"; "FailedReleasing"; "DiskErasing";
                "FailedEraseDisk" ]) as Hs.
  { rewrite !elem_of_cons, elem_of_nil.
    repeat match goal with
           | H : _ \/ _ |- _ => destruct H as [H|H]
           | H : (_, _) = (_, _) |- _ => inversion H; clear H; subst
           | H : False |- _ => destruct H
           end; tauto. }
  clear H.
  repeat (apply elem_of_cons in Hs as [->|Hs];
          [split; first [discriminate | reflexivity] |]).
  by apply elem_of_nil in Hs.
Qed.

(** ** The batch processor on examples *)

Lemma ProcessAll_invalid_pattern_witness :
  ProcessAll Transitions Sample.MaasNodeStatus_String Sample.Literal
    Sample.Compile Sample.MatchString Sample.accepting
    [ Sample.machine "n1" "web-01" "us-east" (inl 4%Z) ]
    (Sample.options ["us-("] ["^web-"; "web(0"; "[a-z"] false false) Sample.start
  = ({| world :=
          {| logs := ["[error] invalid regular expression for include filter '[^web- web(0 [a-z]' : error parsing regexp: `web(0`"];
             posts := [] |};
        goroutines := [] |}, Exits 1).
Proof.
  refine (proj1 (ProcessAll_invalid_pattern Transitions Sample.MaasNodeStatus_String
                   Sample.Literal Sample.Compile Sample.MatchString Sample.accepting
                   [ Sample.machine "n1" "web-01" "us-east" (inl 4%Z) ]
                   (Sample.options ["us-("] ["^web-"; "web(0"; "[a-z"] false false)
                   Sample.start ["^web-"] "web(0" ["[a-z"]
                   [Sample.mkLiteral true false "web-"]
                   "error parsing regexp: `web(0`" _ _) _).
  - repeat constructor.
  - reflexivity.
  - reflexivity.
Defined.


Lemma ProcessAll_preview_sends_nothing_witness :
  posts (world (ProcessAll Transitions Sample.MaasNodeStatus_String Sample.Literal
                  Sample.Compile Sample.MatchString Sample.refusing
                  [ Sample.machine "n1" "web-01" "us-east" (inl 4%Z);
                    Sample.machine "n4" "web-04" "us-east" (inl 10%Z) ]
                  (Sample.options ["^us-east$"] ["^web-"] false true)
                  Sample.start).1) = []
  /\ goroutines (ProcessAll Transitions Sample.MaasNodeStatus_String Sample.Literal
                  Sample.Compile Sample.MatchString Sample.refusing
                  [ Sample.machine "n1" "web-01" "us-east" (inl 4%Z);
                    Sample.machine "n4" "web-04" "us-east" (inl 10%Z) ]
                  (Sample.options ["^us-east$"] ["^web-"] false true)
                  Sample.start).1 = [].
Proof.
  exact (ProcessAll_preview_sends_nothing Sample.MaasNodeStatus_String
           Sample.Literal Sample.Compile Sample.MatchString Sample.refusing
           [ Sample.machine "n1" "web-01" "us-east" (inl 4%Z);
             Sample.machine "n4" "web-04" "us-east" (inl 10%Z) ]
           (Sample.options ["^us-east$"] ["^web-"] false true) Sample.start
           eq_refl).
Defined.

Lemma ProcessAll_result_by_includes_witness :
  (ProcessAll Transitions Sample.MaasNodeStatus_String Sample.Literal
     Sample.Compile Sample.MatchString Sample.accepting
     [ Sample.machine "n1" "web-01" "us-east" (inl 4%Z);
       Sample.machine "n3" "web-03" "us-east" (inr (errorString "no substatus")) ]
     (Sample.options ["^us-east$"] ["^web-"] false true) Sample.start).2
  = (ProcessAll Transitions Sample.MaasNodeStatus_String Sample.Literal
       Sample.Compile Sample.MatchString Sample.refusing
       [ Sample.machine "n1" "web-01" "us-east" (inl 4%Z);
         Sample.machine "n3" "web-03" "us-east" (inr (errorString "no substatus")) ]
       (Sample.options ["^us-east$"] ["^web-"] true false)
       {| world := {| logs := ["earlier"]; posts := [] |}; goroutines := [] |}).2.
Proof.
  apply (ProcessAll_result_by_includes Transitions Sample.MaasNodeStatus_String
           Sample.Literal Sample.Compile Sample.MatchString);
    reflexivity.
Defined.

Lemma ProcessAll_app_witness :
  exists r1 errors1 r2 errors2,
    ProcessAll Transitions Sample.MaasNodeStatus_String Sample.Literal
      Sample.Compile Sample.MatchString Sample.accepting
      [ Sample.machine "n1" "web-01" "us-east" (inl 4%Z) ]
      (Sample.options ["^us-east$"] ["^web-"] true true) Sample.start
    = (r1, Returns errors1)
    /\ ProcessAll Transitions Sample.MaasNodeStatus_String Sample.Literal
         Sample.Compile Sample.MatchString Sample.accepting
         [ Sample.machine "n2" "web-02" "us-west" (inl 10%Z);
           Sample.machine "n3" "web-03" "us-east" (inr (errorString "no substatus")) ]
         (Sample.options ["^us-east$"] ["^web-"] true true) r1
       = (r2, Returns errors2)
    /\ ProcessAll Transitions Sample.MaasNodeStatus_String Sample.Literal
         Sample.Compile Sample.MatchString Sample.accepting
         ([ Sample.machine "n1" "web-01" "us-east" (inl 4%Z) ]
          ++ [ Sample.machine "n2" "web-02" "us-west" (inl 10%Z);
               Sample.machine "n3" "web-03" "us-east"
                 (inr (errorString "no substatus")) ])
         (Sample.options ["^us-east$"] ["^web-"] true true) Sample.start
       = (r2, Returns (errors1 ++ errors2)).
Proof.
  apply (ProcessAll_app Transitions Sample.MaasNodeStatus_String Sample.Literal
           Sample.Compile Sample.MatchString Sample.accepting _ _
           (Sample.options ["^us-east$"] ["^web-"] true true) Sample.start
           [Sample.mkLiteral true false "web-"]
           [Sample.mkLiteral true true "us-east"]);
    reflexivity.
Defined.

Lemma chart_states_without_transition_witness :
  Transitions !! "Deployed" ≫= (.!! "DiskErasing") = None
  <-> "DiskErasing" = "FailedEraseDisk".
Proof.
  apply chart_states_without_transition.
  exists "FailedEraseDisk". left. by apply chart_step_default.
Defined.
